(** * APDU codec (ISO 7816-4): a shallow embedding of [apdu.go]

    The Go package parses and serialises Command APDUs ([Capdu]) and
    Response APDUs ([Rapdu]).  Go's [int] is modelled as [Z] (no operation
    of the package comes near the 64-bit range), a [byte] as a [Z] in
    [0, 256) with the conversion [byte(x)] written out as a mask, and a
    [[]byte] argument as a slice with its length and its capacity, because
    Go checks a slice expression [s[lo:hi]] against the capacity and an
    index expression [s[i]] against the length.  A run-time panic is a
    result of its own, next to a returned value and a returned error. *)

From Stdlib Require Import Ascii String.
From Stdlib Require Import ZArith List Lia Bool.
Import ListNotations.
Import Init.Datatypes.
Open Scope Z_scope.

(** ** Results: value, returned error, or run-time panic *)

(** The two kinds of error the parsers build with [errors.Errorf]; each
    carries the number the message prints. *)
Inductive error : Type :=
| InvalidLength (got : Z)
| InvalidLc (lc : Z).

Inductive res (A : Type) : Type :=
| Ok (a : A)
| Err (e : error)
| Panic.

Arguments Ok {A} a.
Arguments Err {A} e.
Arguments Panic {A}.

Definition bind {A B : Type} (m : res A) (k : A -> res B) : res B :=
  match m with
  | Ok a => k a
  | Err e => Err e
  | Panic => Panic
  end.

Notation "x <- m ;; k" := (bind m (fun x => k))
  (at level 61, m at next level, right associativity).

(** ** Bytes *)

Definition byte := Z.

Definition is_byte (b : byte) : Prop := 0 <= b < 256.

(** Go's conversion [byte(x)] of an [int] keeps the low eight bits. *)
Definition byte_of_int (x : Z) : byte := Z.land x 255.

(** ** Slices of bytes *)

Module Slice.

(** [elems] are the [len] visible elements; [spare] are the elements of
    the backing array between the length and the capacity. *)
Record t : Type := mk { elems : list byte; spare : list byte }.

Definition of_list (l : list byte) : t := mk l [].

Definition len (s : t) : Z := Z.of_nat (length (elems s)).
Definition cap (s : t) : Z := Z.of_nat (length (elems s ++ spare s)).

(** [s[i]]: panics unless [0 <= i < len(s)]. *)
Definition index (s : t) (i : Z) : res byte :=
  if (i <? 0) || (len s <=? i) then Panic
  else match nth_error (elems s) (Z.to_nat i) with
       | Some b => Ok b
       | None => Panic
       end.

(** [s[lo:hi]]: panics unless [0 <= lo <= hi <= cap(s)]. *)
Definition sub (s : t) (lo hi : Z) : res t :=
  if (lo <? 0) || (hi <? lo) || (cap s <? hi) then Panic
  else
    let backing := elems s ++ spare s in
    Ok (mk (firstn (Z.to_nat (hi - lo)) (skipn (Z.to_nat lo) backing))
           (skipn (Z.to_nat hi) backing)).

(** [s[lo:]] is [s[lo:len(s)]]. *)
Definition from (s : t) (lo : Z) : res t := sub s lo (len s).

(** [s[:hi]] is [s[0:hi]]. *)
Definition upto (s : t) (hi : Z) : res t := sub s 0 hi.

End Slice.

(** [binary.BigEndian.Uint16(b)]: the library first touches [b[1]] (the
    bounds check), then combines [b[0]] and [b[1]]. *)
Definition Uint16 (b : Slice.t) : res Z :=
  b1 <- Slice.index b 1 ;;
  b0 <- Slice.index b 0 ;;
  Ok (Z.lor b1 (Z.shiftl b0 8)).

(** ** Constants of the package *)

Definition OffsetCla : Z := 0.
Definition OffsetIns : Z := 1.
Definition OffsetP1 : Z := 2.
Definition OffsetP2 : Z := 3.
Definition OffsetLcStandard : Z := 4.
Definition OffsetLcExtended : Z := 5.
Definition OffsetCdataStandard : Z := 5.
Definition OffsetCdataExtended : Z := 7.
Definition MaxLenCommandDataStandard : Z := 255.
Definition MaxLenResponseDataStandard : Z := 256.
Definition MaxLenCommandDataExtended : Z := 65535.
Definition MaxLenResponseDataExtended : Z := 65536.
Definition LenHeader : Z := 4.
Definition LenLCStandard : Z := 1.
Definition LenLCExtended : Z := 3.
Definition LenResponseTrailer : Z := 2.

(** ** Command APDU *)

Module Capdu.

(** [Data] holds the contents of the Go slice: [nil] and the empty slice
    are the same sequence [[]]. *)
Record t : Type := mk {
  Cla : byte;
  Ins : byte;
  P1 : byte;
  P2 : byte;
  Data : list byte;
  Ne : Z
}.

Definition dlen (c : t) : Z := Z.of_nat (length (Data c)).

Definition determineCase (c : t) : Z :=
  if (dlen c =? 0) && (Ne c =? 0) then 1
  else if (dlen c =? 0) && (Ne c >? 0) then 2
  else if negb (dlen c =? 0) && (Ne c =? 0) then 3
  else 4.

Definition IsExtendedLength (c : t) : bool :=
  (Ne c >? MaxLenResponseDataStandard) || (dlen c >? MaxLenCommandDataStandard).

(** [c.Data[:n]]; the capacity of [c.Data] is at least its length, so the
    expression cannot panic when [n <= len(c.Data)]; beyond the length
    the model panics. *)
Definition data_upto (c : t) (n : Z) : res (list byte) :=
  if (n <? 0) || (dlen c <? n) then Panic
  else Ok (firstn (Z.to_nat n) (Data c)).

(** The three bytes [make([]byte, LenLCExtended)] with [[1]] and [[2]]
    set to the high and low byte of [n]. *)
Definition ext3 (n : Z) : list byte :=
  [0; byte_of_int (Z.land (Z.shiftr n 8) 255); byte_of_int (Z.land n 255)].

Definition Bytes (c : t) : res (list byte) :=
  let ca := determineCase c in
  let header := [Cla c; Ins c; P1 c; P2 c] in
  let dataLen := dlen c in
  if ca =? 1 then Ok header
  else if ca =? 2 then
    if Ne c >? MaxLenResponseDataStandard then
      let ne := if Ne c >? MaxLenResponseDataExtended
                then MaxLenResponseDataExtended else Ne c in
      let le := if ne =? MaxLenResponseDataExtended
                then [0; 0; 0] else ext3 (Ne c) in
      Ok (header ++ le)
    else if Ne c =? MaxLenResponseDataStandard then Ok (header ++ [0])
    else Ok (header ++ [byte_of_int (Ne c)])
  else if ca =? 3 then
    if dlen c >? MaxLenCommandDataStandard then
      let dataLen := if dataLen >? MaxLenCommandDataExtended
                     then MaxLenCommandDataExtended else dataLen in
      let lc := ext3 dataLen in
      d <- data_upto c dataLen ;;
      Ok (header ++ lc ++ d)
    else Ok (header ++ [byte_of_int dataLen] ++ Data c)
  else
    if (Ne c >? MaxLenResponseDataStandard) || (dlen c >? MaxLenCommandDataStandard) then
      let dataLen := if dataLen >? MaxLenCommandDataExtended
                     then MaxLenCommandDataExtended else dataLen in
      let ne := if Ne c >? MaxLenResponseDataExtended
                then MaxLenResponseDataExtended else Ne c in
      let lc := ext3 dataLen in
      let le := if ne =? MaxLenResponseDataExtended
                then [0; 0]
                else [byte_of_int (Z.land (Z.shiftr (Ne c) 8) 255);
                      byte_of_int (Z.land (Ne c) 255)] in
      d <- data_upto c dataLen ;;
      Ok (header ++ lc ++ d ++ le)
    else Ok (header ++ [byte_of_int dataLen] ++ Data c ++ [byte_of_int (Ne c)]).

Definition Lc (c : t) : list byte :=
  if dlen c =? 0 then []
  else if dlen c >? MaxLenCommandDataStandard then ext3 (dlen c)
  else [byte_of_int (dlen c)].

End Capdu.

(** ** Parsing a Command APDU *)

(** The composite literal
    [Capdu{Cla: c[OffsetCla], Ins: c[OffsetIns], P1: c[OffsetP1], P2: c[OffsetP2], Data: data, Ne: ne}]
    that every successful path of the parser returns. *)
Definition capdu_lit (c : Slice.t) (data : list byte) (ne : Z) : res Capdu.t :=
  cla <- Slice.index c OffsetCla ;;
  ins <- Slice.index c OffsetIns ;;
  p1 <- Slice.index c OffsetP1 ;;
  p2 <- Slice.index c OffsetP2 ;;
  Ok (Capdu.mk cla ins p1 p2 data ne).

Definition parseCapduStandardLength (c : Slice.t) : res Capdu.t :=
  if Slice.len c =? LenHeader + LenLCStandard then
    ne <- Slice.index c OffsetLcStandard ;;
    if ne =? 0 then capdu_lit c [] MaxLenResponseDataStandard
    else capdu_lit c [] ne
  else
    let bodyLen := Slice.len c - LenHeader in
    lc <- Slice.index c OffsetLcStandard ;;
    if negb (lc =? bodyLen - LenLCStandard) && negb (lc =? bodyLen - LenLCStandard - 1)
    then Err (InvalidLc lc)
    else
      data <- Slice.sub c OffsetCdataStandard (OffsetCdataStandard + lc) ;;
      if Slice.len c =? LenHeader + LenLCStandard + Slice.len data
      then capdu_lit c (Slice.elems data) 0
      else
        le <- Slice.index c (Slice.len c - 1) ;;
        let ne := if le =? 0 then MaxLenResponseDataStandard else le in
        capdu_lit c (Slice.elems data) ne.

Definition parseCapduExtendedLength (c : Slice.t) : res Capdu.t :=
  if Slice.len c =? LenHeader + LenLCExtended then
    t <- Slice.from c OffsetLcExtended ;;
    le <- Uint16 t ;;
    let ne := if le =? 0 then MaxLenResponseDataExtended else le in
    capdu_lit c [] ne
  else
    let bodyLen := Slice.len c - LenHeader in
    t <- Slice.sub c OffsetLcExtended (OffsetLcExtended + 2) ;;
    lc <- Uint16 t ;;
    if negb (lc =? bodyLen - LenLCExtended) && negb (lc =? bodyLen - LenLCExtended - 2)
    then Err (InvalidLc lc)
    else
      data <- Slice.sub c OffsetCdataExtended (OffsetCdataExtended + lc) ;;
      if Slice.len c =? LenHeader + LenLCExtended + Slice.len data
      then capdu_lit c (Slice.elems data) 0
      else
        t <- Slice.from c (Slice.len c - 2) ;;
        le <- Uint16 t ;;
        let ne := if le =? 0 then MaxLenResponseDataExtended else le in
        capdu_lit c (Slice.elems data) ne.

Definition ParseCapdu (c : Slice.t) : res Capdu.t :=
  if (Slice.len c <? LenHeader) || (Slice.len c >? 65544)
  then Err (InvalidLength (Slice.len c))
  else if Slice.len c =? LenHeader then capdu_lit c [] 0
  else
    b <- Slice.index c OffsetLcStandard ;;
    if b =? 0 then
      t <- Slice.from c OffsetLcExtended ;;
      if Slice.len t >? 0 then parseCapduExtendedLength c
      else parseCapduStandardLength c
    else parseCapduStandardLength c.

(** ** Response APDU *)

Module Rapdu.

Record t : Type := mk {
  Data : list byte;
  SW1 : byte;
  SW2 : byte
}.

Definition dlen (r : t) : Z := Z.of_nat (length (Data r)).

(** [r.Data[:n]], as [Capdu.data_upto]. *)
Definition data_upto (r : t) (n : Z) : res (list byte) :=
  if (n <? 0) || (dlen r <? n) then Panic
  else Ok (firstn (Z.to_nat n) (Data r)).

(** [capr] is [cap(result)] after the [make]. *)
Definition Bytes (r : t) : res (list byte) :=
  let capr := if dlen r >? MaxLenResponseDataExtended then 65536 else dlen r in
  d <- data_upto r capr ;;
  Ok (d ++ [SW1 r; SW2 r]).

Definition IsSuccess (r : t) : bool :=
  (SW1 r =? 0x61) || ((SW1 r =? 0x90) && (SW2 r =? 0x00)).

Definition IsWarning (r : t) : bool :=
  (SW1 r =? 0x62) || (SW1 r =? 0x63).

Definition IsError (r : t) : bool :=
  ((SW1 r =? 0x64) || (SW1 r =? 0x65)) || ((SW1 r >=? 0x67) && (SW1 r <=? 0x6F)).

End Rapdu.

(** The zero values of [var data []byte; sw1, sw2 byte] are kept when
    neither [if] fires; after the length check exactly one of them does. *)
Definition ParseRapdu (b : Slice.t) : res Rapdu.t :=
  if (Slice.len b <? LenResponseTrailer) || (Slice.len b >? 65538)
  then Err (InvalidLength (Slice.len b))
  else
    st1 <- (if Slice.len b =? LenResponseTrailer then
              sw1 <- Slice.index b 0 ;;
              sw2 <- Slice.index b 1 ;;
              Ok ([], sw1, sw2)
            else Ok ([], 0, 0)) ;;
    st2 <- (if Slice.len b >? LenResponseTrailer then
              data <- Slice.upto b (Slice.len b - LenResponseTrailer) ;;
              sw1 <- Slice.index b (Slice.len b - 2) ;;
              sw2 <- Slice.index b (Slice.len b - 1) ;;
              Ok (Slice.elems data, sw1, sw2)
            else Ok st1) ;;
    let '(data, sw1, sw2) := st2 in
    Ok (Rapdu.mk data sw1 sw2).

(** ** Hexadecimal strings

    The wrappers of the package go through Go's [encoding/hex] and
    [strings.ToUpper].  A Go string is a sequence of bytes, here a
    [string] of [ascii] characters, and [len(s)] is [String.length]. *)

(** The code of a character, as a Go [byte]. *)
Definition code (ch : ascii) : Z := Z.of_N (N_of_ascii ch).

(** The table of digits of [hex.EncodeToString]. *)
Definition hextable : string := "0123456789abcdef".

(** [hextable[n]]. *)
Definition hexchar (n : Z) : ascii :=
  match String.get (Z.to_nat n) hextable with
  | Some ch => ch
  | None => "0"%char
  end.

(** [hex.EncodeToString]: two digits for every byte [v], [hextable[v>>4]]
    and [hextable[v&0x0f]]. *)
Fixpoint EncodeToString (src : list byte) : string :=
  match src with
  | [] => EmptyString
  | v :: rest =>
      String (hexchar (Z.shiftr v 4))
        (String (hexchar (Z.land v 15)) (EncodeToString rest))
  end.

(** The value of a hexadecimal digit, in either case; [None] for any
    other character (the library's [reverseHexTable] holds [0xff]). *)
Definition fromHexChar (ch : ascii) : option Z :=
  let n := code ch in
  if (48 <=? n) && (n <=? 57) then Some (n - 48)
  else if (97 <=? n) && (n <=? 102) then Some (n - 97 + 10)
  else if (65 <=? n) && (n <=? 70) then Some (n - 65 + 10)
  else None.

Inductive decode_error : Type :=
| InvalidByteError (ch : ascii)
| ErrLength.

(** [hex.Decode]: the bytes decoded before the error, and the error.  Two
    characters give one byte [(a << 4) | b]; the first invalid character
    is reported; a last character without a partner is checked before
    the length is reported. *)
Fixpoint Decode (src : string) : list byte * option decode_error :=
  match src with
  | EmptyString => ([], None)
  | String p EmptyString =>
      match fromHexChar p with
      | None => ([], Some (InvalidByteError p))
      | Some _ => ([], Some ErrLength)
      end
  | String p (String q rest) =>
      match fromHexChar p with
      | None => ([], Some (InvalidByteError p))
      | Some a =>
          match fromHexChar q with
          | None => ([], Some (InvalidByteError q))
          | Some b =>
              let '(bs, err) := Decode rest in
              (Z.lor (Z.shiftl a 4) b :: bs, err)
          end
      end
  end.

(** [hex.DecodeString] returns the decoded bytes in a fresh slice. *)
Definition DecodeString (s : string) : list byte * option decode_error :=
  Decode s.

(** [strings.ToUpper] on one byte of an ASCII string. *)
Definition upper (ch : ascii) : ascii :=
  let n := code ch in
  if (97 <=? n) && (n <=? 122) then ascii_of_N (Z.to_N (n - 32)) else ch.

(** [strings.ToUpper], for the ASCII strings [hex.EncodeToString]
    returns: every lower-case letter is replaced by its upper-case
    letter. *)
Fixpoint ToUpper (s : string) : string :=
  match s with
  | EmptyString => EmptyString
  | String ch rest => String (upper ch) (ToUpper rest)
  end.

(** [Capdu.String] and [Rapdu.String]. *)
Definition Capdu_String (c : Capdu.t) : res string :=
  bs <- Capdu.Bytes c ;; Ok (ToUpper (EncodeToString bs)).

Definition Rapdu_String (r : Rapdu.t) : res string :=
  bs <- Rapdu.Bytes r ;; Ok (ToUpper (EncodeToString bs)).

(** The errors of the wrappers: their own three, and the error of the
    parser, which they return as it is. *)
Inductive wrap_error : Type :=
| UnevenHex
| InvalidStringLength (got : Z)
| HexConversion (e : decode_error)
| Parse (e : error).

Inductive wres (A : Type) : Type :=
| WOk (a : A)
| WErr (e : wrap_error)
| WPanic.

Arguments WOk {A} a.
Arguments WErr {A} e.
Arguments WPanic {A}.

Definition of_res {A : Type} (r : res A) : wres A :=
  match r with
  | Ok a => WOk a
  | Err e => WErr (Parse e)
  | Panic => WPanic
  end.

Definition slen (s : string) : Z := Z.of_nat (String.length s).

(** [sp] stands for the spare capacity of the slice [hex.DecodeString]
    returns, which the library leaves open: the elements of its backing
    array beyond the decoded bytes. *)
Definition ParseCapduHexString (s : string) (sp : list byte) : wres Capdu.t :=
  if negb (Z.rem (slen s) 2 =? 0) then WErr UnevenHex
  else if (slen s <? 8) || (slen s >? 131088)
  then WErr (InvalidStringLength (Z.quot (slen s) 2))
  else
    let '(b, err) := DecodeString s in
    match err with
    | Some e => WErr (HexConversion e)
    | None => of_res (ParseCapdu (Slice.mk b sp))
    end.

Definition ParseRapduHexString (s : string) (sp : list byte) : wres Rapdu.t :=
  if negb (Z.rem (slen s) 2 =? 0) then WErr UnevenHex
  else if (slen s <? 4) || (slen s >? 131076)
  then WErr (InvalidStringLength (Z.quot (slen s) 2))
  else
    let '(tmp, err) := DecodeString s in
    match err with
    | Some e => WErr (HexConversion e)
    | None => of_res (ParseRapdu (Slice.mk tmp sp))
    end.

(** ** Vocabulary of the statements *)

(** The big-endian value of the byte pair [(hi, lo)]. *)
Definition u16 (hi lo : byte) : Z := Z.lor lo (Z.shiftl hi 8).

Definition hi8 (n : Z) : byte := byte_of_int (Z.land (Z.shiftr n 8) 255).
Definition lo8 (n : Z) : byte := byte_of_int (Z.land n 255).

(** The byte at position [i], read without a bounds check. *)
Definition at_ (c : Slice.t) (i : Z) : byte := nth (Z.to_nat i) (Slice.elems c) 0.

(** The [lc] bytes that start at offset [off]. *)
Definition body (c : Slice.t) (off lc : Z) : list byte :=
  firstn (Z.to_nat lc) (skipn (Z.to_nat off) (Slice.elems c)).

Definition hdr (c : Slice.t) (data : list byte) (ne : Z) : Capdu.t :=
  Capdu.mk (at_ c 0) (at_ c 1) (at_ c 2) (at_ c 3) data ne.

(** Zero stands for the maximum in both encodings of Le. *)
Definition ne_std (le : Z) : Z := if le =? 0 then 256 else le.
Definition ne_ext (le : Z) : Z := if le =? 0 then 65536 else le.

(** Every element of the backing array of a Go [[]byte] is a byte. *)
Definition slice_wf (s : Slice.t) : Prop :=
  Forall is_byte (Slice.elems s ++ Slice.spare s).

(** The length of a byte sequence, as a Go [int]. *)
Definition llen (l : list byte) : Z := Z.of_nat (length l).

(** The four header bytes of a Capdu. *)
Definition header (c : Capdu.t) : list byte :=
  [Capdu.Cla c; Capdu.Ins c; Capdu.P1 c; Capdu.P2 c].

(** The data length and the Ne that reach the wire. *)
Definition wire_dlen (c : Capdu.t) : Z := Z.min (Capdu.dlen c) 65535.
Definition wire_ne (c : Capdu.t) : Z := Z.min (Capdu.Ne c) 65536.

(** The value whose fields are cut to the limits of the wire format. *)
Definition truncated (c : Capdu.t) : Capdu.t :=
  Capdu.mk (Capdu.Cla c) (Capdu.Ins c) (Capdu.P1 c) (Capdu.P2 c)
           (firstn (Z.to_nat 65535) (Capdu.Data c)) (Z.min (Capdu.Ne c) 65536).

(** Every field of a Capdu that holds bytes holds bytes. *)
Definition capdu_wf (c : Capdu.t) : Prop :=
  is_byte (Capdu.Cla c) /\ is_byte (Capdu.Ins c) /\ is_byte (Capdu.P1 c)
  /\ is_byte (Capdu.P2 c) /\ Forall is_byte (Capdu.Data c).

(** The data-model invariant of a Capdu. *)
Definition capdu_valid (c : Capdu.t) : Prop :=
  0 <= Capdu.Ne c <= 65536 /\ Capdu.dlen c <= 65535.

(** The seven shapes of an accepted input: the length of the input
    against the length of the data and the Ne of the result. *)
Definition accepted_shape (n d ne : Z) : Prop :=
  (n = 4 /\ d = 0 /\ ne = 0)
  \/ (n = 5 /\ d = 0 /\ 1 <= ne <= 256)
  \/ (n = 7 /\ d = 0 /\ 1 <= ne <= 65536)
  \/ (n = 5 + d /\ 1 <= d <= 255 /\ ne = 0)
  \/ (n = 6 + d /\ 1 <= d <= 255 /\ 1 <= ne <= 256)
  \/ (n = 7 + d /\ 1 <= d <= 65535 /\ ne = 0)
  \/ (n = 9 + d /\ 0 <= d <= 65535 /\ 1 <= ne <= 65536).

(** The number of bytes [Capdu.Bytes] writes. *)
Definition wire_len (c : Capdu.t) : Z :=
  let d := wire_dlen c in
  if (Capdu.dlen c =? 0) && (0 <=? Capdu.Ne c) then
    if Capdu.Ne c =? 0 then 4 else if Capdu.Ne c <=? 256 then 5 else 7
  else if Capdu.IsExtendedLength c then
    if Capdu.Ne c =? 0 then 7 + d else 9 + d
  else
    if Capdu.Ne c =? 0 then 5 + d else 6 + d.

(** Every field of a Rapdu holds bytes. *)
Definition rapdu_wf (r : Rapdu.t) : Prop :=
  Forall is_byte (Rapdu.Data r) /\ is_byte (Rapdu.SW1 r) /\ is_byte (Rapdu.SW2 r).

(** The digits [0-9] and [A-F]. *)
Definition upper_hex_digit (ch : ascii) : bool :=
  ((48 <=? code ch) && (code ch <=? 57)) || ((65 <=? code ch) && (code ch <=? 70)).

Fixpoint all_chars (p : ascii -> bool) (s : string) : bool :=
  match s with
  | EmptyString => true
  | String ch rest => p ch && all_chars p rest
  end.

(** * Properties *)

(** ** Tactics *)

(** Unfold the constants of the package. *)
Ltac consts :=
  cbv [OffsetCla OffsetIns OffsetP1 OffsetP2 OffsetLcStandard OffsetLcExtended
       OffsetCdataStandard OffsetCdataExtended MaxLenCommandDataStandard
       MaxLenResponseDataStandard MaxLenCommandDataExtended
       MaxLenResponseDataExtended LenHeader LenLCStandard LenLCExtended
       LenResponseTrailer] in *.

(** Decide one comparison of the goal by arithmetic on the lengths. *)
Ltac decide_test :=
  match goal with
  | |- context [?a =? ?b] =>
      destruct (Z.eqb_spec a b); [try (exfalso; lia) | try (exfalso; lia)]
  | |- context [?a <? ?b] =>
      destruct (Z.ltb_spec a b); [try (exfalso; lia) | try (exfalso; lia)]
  end.

(** Close a side condition on a concrete input by evaluation. *)
Ltac by_eval := vm_compute; repeat split; (discriminate || reflexivity || lia).

(** ** Arithmetic of the length fields *)

Lemma land_255_mod (x : Z) : Z.land x 255 = x mod 256.
Proof. change 255 with (Z.ones 8). now rewrite Z.land_ones by lia. Qed.

Lemma byte_of_int_mod (x : Z) : byte_of_int x = x mod 256.
Proof. apply land_255_mod. Qed.

Lemma byte_of_int_small (x : Z) : 0 <= x < 256 -> byte_of_int x = x.
Proof. intros H. rewrite byte_of_int_mod. now apply Z.mod_small. Qed.

Lemma hi8_div (n : Z) : hi8 n = (n / 256) mod 256.
Proof.
  unfold hi8. rewrite byte_of_int_mod, land_255_mod, Z.shiftr_div_pow2 by lia.
  change (2 ^ 8) with 256. apply Z.mod_mod. lia.
Qed.

Lemma lo8_mod (n : Z) : lo8 n = n mod 256.
Proof.
  unfold lo8. rewrite byte_of_int_mod, land_255_mod. apply Z.mod_mod. lia.
Qed.

Lemma u16_add (hi lo : Z) : 0 <= lo < 256 -> u16 hi lo = lo + 256 * hi.
Proof.
  intros Hlo. unfold u16.
  rewrite Z.shiftl_mul_pow2 by lia. change (2 ^ 8) with 256.
  assert (Hdisj : Z.land lo (hi * 256) = 0);
    [| rewrite <- (Z.lxor_lor _ _ Hdisj), <- (Z.add_nocarry_lxor _ _ Hdisj); lia].
  apply Z.bits_inj'. intros i Hi.
  rewrite Z.land_spec, Z.bits_0.
  destruct (Z.lt_ge_cases i 8) as [Hlt | Hge].
  - replace (hi * 256) with (hi * 2 ^ 8) by reflexivity.
    rewrite Z.mul_pow2_bits_low by lia. apply andb_false_r.
  - rewrite (Z.bits_above_log2 lo i); [reflexivity | lia |].
    destruct (Z.eq_dec lo 0) as [-> | Hnz]; [simpl; lia |].
    apply Z.lt_le_trans with 8; [| exact Hge].
    apply Z.log2_lt_pow2; [lia |]. change (2 ^ 8) with 256. lia.
Qed.

Lemma u16_hi8_lo8 (n : Z) : 0 <= n < 65536 -> u16 (hi8 n) (lo8 n) = n.
Proof.
  intros Hn. rewrite hi8_div, lo8_mod.
  rewrite u16_add by (apply Z.mod_pos_bound; lia).
  rewrite (Z.mod_small (n / 256)).
  - symmetry. rewrite Z.add_comm. apply Z.div_mod. lia.
  - split; [apply Z.div_pos; lia | apply Z.div_lt_upper_bound; lia].
Qed.

Lemma u16_bytes_range (hi lo : Z) :
  is_byte hi -> is_byte lo -> 0 <= u16 hi lo < 65536.
Proof. unfold is_byte. intros Hh Hl. rewrite u16_add by lia. lia. Qed.

(** ** Slice expressions inside the length *)

Module SliceFacts.
Import Slice.

Lemma len_le_cap (s : t) : len s <= cap s.
Proof. unfold len, cap. rewrite length_app. lia. Qed.

Lemma index_ok (s : t) (i : Z) :
  0 <= i < len s -> index s i = Ok (nth (Z.to_nat i) (elems s) 0).
Proof.
  intros [H0 H1]. unfold index.
  destruct (Z.ltb_spec i 0); [lia |].
  destruct (Z.leb_spec (len s) i); [lia |]. simpl.
  rewrite (nth_error_nth' (elems s) 0); [reflexivity |].
  unfold len in H1. lia.
Qed.

Lemma sub_ok (s : t) (lo hi : Z) :
  0 <= lo -> lo <= hi -> hi <= len s ->
  exists s', sub s lo hi = Ok s'
             /\ elems s' = firstn (Z.to_nat (hi - lo)) (skipn (Z.to_nat lo) (elems s)).
Proof.
  intros H0 H1 H2. unfold sub.
  pose proof (len_le_cap s) as Hc.
  destruct (Z.ltb_spec lo 0); [lia |].
  destruct (Z.ltb_spec hi lo); [lia |].
  destruct (Z.ltb_spec (cap s) hi); [lia |]. simpl.
  eexists. split; [reflexivity |]. simpl.
  rewrite skipn_app, firstn_app.
  replace (Z.to_nat (hi - lo) - length (skipn (Z.to_nat lo) (elems s)))%nat with 0%nat.
  - simpl. apply app_nil_r.
  - rewrite length_skipn. unfold len in H2. lia.
Qed.

Lemma sub_panic (s : t) (lo hi : Z) :
  lo < 0 \/ hi < lo \/ cap s < hi -> sub s lo hi = Panic.
Proof.
  intros H. unfold sub.
  destruct (Z.ltb_spec lo 0); [reflexivity |].
  destruct (Z.ltb_spec hi lo); [reflexivity |].
  destruct (Z.ltb_spec (cap s) hi); [reflexivity | lia].
Qed.

Lemma sub_len (s s' : t) (lo hi : Z) :
  0 <= lo -> lo <= hi -> hi <= len s ->
  sub s lo hi = Ok s' -> len s' = hi - lo.
Proof.
  intros H0 H1 H2 Hs.
  destruct (sub_ok s lo hi H0 H1 H2) as [s'' [Hs'' He]].
  rewrite Hs in Hs''. injection Hs'' as <-.
  unfold len in *. rewrite He, length_firstn, length_skipn. lia.
Qed.

End SliceFacts.

(** ** What the parsers compute, in terms of the input sequence *)

Section ParserEquations.
Import Slice SliceFacts.

Variable c : Slice.t.

Lemma capdu_lit_ok (data : list byte) (ne : Z) :
  4 <= len c -> capdu_lit c data ne = Ok (hdr c data ne).
Proof.
  intros H. unfold capdu_lit. consts.
  rewrite !index_ok by lia. reflexivity.
Qed.

Lemma Uint16_ok (s : Slice.t) :
  2 <= len s -> Uint16 s = Ok (u16 (at_ s 0) (at_ s 1)).
Proof.
  intros H. unfold Uint16. rewrite !index_ok by lia. reflexivity.
Qed.

(** [c[lo:hi]] followed by [Uint16], when both bytes are inside [c]. *)
Lemma Uint16_sub (lo hi : Z) :
  0 <= lo -> lo + 2 <= hi -> hi <= len c ->
  exists t, sub c lo hi = Ok t
            /\ Uint16 t = Ok (u16 (at_ c lo) (at_ c (lo + 1))).
Proof.
  intros H0 H1 H2.
  destruct (sub_ok c lo hi) as [s' [Hs He]]; try lia.
  exists s'. split; [exact Hs |].
  rewrite Uint16_ok by (rewrite (sub_len c s' lo hi) by (lia || assumption); lia).
  unfold at_. rewrite He.
  assert (Hlen : (Z.to_nat lo + 2 <= length (elems c))%nat)
    by (unfold len in H2; lia).
  rewrite !nth_firstn.
  destruct (Nat.ltb_spec (Z.to_nat 0) (Z.to_nat (hi - lo))); [| lia].
  destruct (Nat.ltb_spec (Z.to_nat 1) (Z.to_nat (hi - lo))); [| lia].
  rewrite !nth_skipn.
  replace (Z.to_nat lo + Z.to_nat 0)%nat with (Z.to_nat lo) by lia.
  replace (Z.to_nat lo + Z.to_nat 1)%nat with (Z.to_nat (lo + 1)) by lia.
  reflexivity.
Qed.

Lemma parseCapduStandardLength_eq :
  5 <= len c ->
  parseCapduStandardLength c =
    if len c =? 5 then Ok (hdr c [] (ne_std (at_ c 4)))
    else
      let lc := at_ c 4 in
      if lc =? len c - 5 then Ok (hdr c (body c 5 lc) 0)
      else if lc =? len c - 6
           then Ok (hdr c (body c 5 lc) (ne_std (at_ c (len c - 1))))
           else Err (InvalidLc lc).
Proof.
  intros Hlen. unfold parseCapduStandardLength. consts.
  change (4 + 1) with 5.
  destruct (Z.eqb_spec (len c) 5) as [H5 | H5].
  - rewrite index_ok by lia. cbn [bind]. fold (at_ c 4). unfold ne_std.
    destruct (at_ c 4 =? 0); apply capdu_lit_ok; lia.
  - rewrite index_ok by lia. cbn [bind]. fold (at_ c 4).
    replace (len c - 4 - 1 - 1) with (len c - 6) by lia.
    replace (len c - 4 - 1) with (len c - 5) by lia.
    destruct (Z.eqb_spec (at_ c 4) (len c - 5)) as [Ha | Ha]; cbn [negb andb].
    + destruct (sub_ok c 5 (5 + at_ c 4)) as [d [Hd He]]; try lia.
      rewrite Hd. cbn [bind].
      rewrite (sub_len c d 5 (5 + at_ c 4)) by (lia || assumption).
      destruct (Z.eqb_spec (len c) (5 + (5 + at_ c 4 - 5))); [| lia].
      rewrite capdu_lit_ok by lia. rewrite He. unfold body.
      do 3 f_equal. lia.
    + destruct (Z.eqb_spec (at_ c 4) (len c - 6)) as [Hb | Hb]; cbn [negb andb];
        [| reflexivity].
      destruct (sub_ok c 5 (5 + at_ c 4)) as [d [Hd He]]; try lia.
      rewrite Hd. cbn [bind].
      rewrite (sub_len c d 5 (5 + at_ c 4)) by (lia || assumption).
      destruct (Z.eqb_spec (len c) (5 + (5 + at_ c 4 - 5))); [lia |].
      rewrite index_ok by lia. cbn [bind]. fold (at_ c (len c - 1)).
      fold (ne_std (at_ c (len c - 1))).
      rewrite capdu_lit_ok by lia. rewrite He. unfold body.
      do 3 f_equal. lia.
Qed.

Lemma parseCapduExtendedLength_eq :
  7 <= len c ->
  parseCapduExtendedLength c =
    if len c =? 7 then Ok (hdr c [] (ne_ext (u16 (at_ c 5) (at_ c 6))))
    else
      let lc := u16 (at_ c 5) (at_ c 6) in
      if lc =? len c - 7 then Ok (hdr c (body c 7 lc) 0)
      else if lc =? len c - 9
           then if lc <? 0 then Panic
                else Ok (hdr c (body c 7 lc)
                           (ne_ext (u16 (at_ c (len c - 2)) (at_ c (len c - 1)))))
           else Err (InvalidLc lc).
Proof.
  intros Hlen. unfold parseCapduExtendedLength, from. consts.
  change (4 + 3) with 7. change (5 + 2) with 7.
  destruct (Z.eqb_spec (len c) 7) as [H7 | H7].
  - destruct (Uint16_sub 5 (len c)) as [t [Ht Hu]]; try lia.
    rewrite Ht. cbn [bind]. rewrite Hu. cbn [bind].
    apply capdu_lit_ok. lia.
  - destruct (Uint16_sub 5 7) as [t [Ht Hu]]; try lia.
    rewrite Ht. cbn [bind]. rewrite Hu. cbn [bind].
    change (5 + 1) with 6. cbv zeta.
    set (lc := u16 (at_ c 5) (at_ c 6)).
    replace (len c - 4 - 3 - 2) with (len c - 9) by lia.
    replace (len c - 4 - 3) with (len c - 7) by lia.
    destruct (Z.eqb_spec lc (len c - 7)) as [Ha | Ha]; cbn [negb andb].
    + destruct (sub_ok c 7 (7 + lc)) as [d [Hd He]]; try lia.
      rewrite Hd. cbn [bind].
      rewrite (sub_len c d 7 (7 + lc)) by (lia || assumption).
      destruct (Z.eqb_spec (len c) (7 + (7 + lc - 7))); [| lia].
      rewrite capdu_lit_ok by lia. rewrite He. unfold body.
      do 3 f_equal. lia.
    + destruct (Z.eqb_spec lc (len c - 9)) as [Hb | Hb]; cbn [negb andb];
        [| reflexivity].
      destruct (Z.ltb_spec lc 0) as [Hneg | Hpos].
      * rewrite sub_panic by lia. reflexivity.
      * destruct (sub_ok c 7 (7 + lc)) as [d [Hd He]]; try lia.
        rewrite Hd. cbn [bind].
        rewrite (sub_len c d 7 (7 + lc)) by (lia || assumption).
        destruct (Z.eqb_spec (len c) (7 + (7 + lc - 7))); [lia |].
        destruct (Uint16_sub (len c - 2) (len c)) as [t' [Ht' Hu']]; try lia.
        rewrite Ht'. cbn [bind]. rewrite Hu'. cbn [bind].
        replace (len c - 2 + 1) with (len c - 1) by lia.
        rewrite capdu_lit_ok by lia. rewrite He. unfold body, ne_ext.
        do 3 f_equal. lia.
Qed.

End ParserEquations.

Lemma Forall_nth_lt {A : Type} (P : A -> Prop) (l : list A) (i : nat) (d : A) :
  Forall P l -> (i < length l)%nat -> P (nth i l d).
Proof. intros H Hi. apply (proj1 (Forall_nth P l) H). exact Hi. Qed.

Section ParseCapduEquation.
Import Slice SliceFacts.

Variable c : Slice.t.

(** The dispatch of [ParseCapdu] with the slice expression
    [c[OffsetLcExtended:]] evaluated. *)
Lemma ParseCapdu_eq :
  ParseCapdu c =
    if (len c <? 4) || (len c >? 65544) then Err (InvalidLength (len c))
    else if len c =? 4 then Ok (hdr c [] 0)
    else if (at_ c 4 =? 0) && (len c >? 5) then parseCapduExtendedLength c
    else parseCapduStandardLength c.
Proof.
  unfold ParseCapdu, from. consts.
  destruct (Z.ltb_spec (len c) 4) as [H4 | H4]; [reflexivity |].
  destruct (len c >? 65544); [reflexivity |]. cbn [orb].
  destruct (Z.eqb_spec (len c) 4) as [E4 | E4].
  - apply capdu_lit_ok. lia.
  - rewrite index_ok by lia. cbn [bind]. fold (at_ c 4).
    destruct (at_ c 4 =? 0); [| reflexivity]. cbn [andb].
    destruct (sub_ok c 5 (len c)) as [t [Ht He]]; try lia.
    rewrite Ht. cbn [bind].
    rewrite (sub_len c t 5 (len c)) by (lia || assumption).
    rewrite !Z.gtb_ltb.
    destruct (Z.ltb_spec 0 (len c - 5)); destruct (Z.ltb_spec 5 (len c));
      (reflexivity || lia).
Qed.

(** Six bytes whose fifth is zero: [c[5:7]] is checked against the
    capacity. *)
Lemma parseCapduExtendedLength_len6_panic :
  len c = 6 -> cap c < 7 -> parseCapduExtendedLength c = Panic.
Proof.
  intros H6 Hc. unfold parseCapduExtendedLength. consts.
  destruct (Z.eqb_spec (len c) (4 + 3)); [lia |].
  rewrite sub_panic by lia. reflexivity.
Qed.

Lemma parseCapduExtendedLength_len6_err :
  len c = 6 -> 7 <= cap c -> slice_wf c ->
  exists lc, parseCapduExtendedLength c = Err (InvalidLc lc).
Proof.
  intros H6 Hc Hwf. unfold parseCapduExtendedLength. consts.
  destruct (Z.eqb_spec (len c) (4 + 3)); [lia |].
  unfold sub. change (5 + 2) with 7.
  destruct (Z.ltb_spec 5 0); [lia |].
  destruct (Z.ltb_spec 7 5); [lia |].
  destruct (Z.ltb_spec (cap c) 7); [lia |]. cbn [orb bind].
  set (backing := elems c ++ spare c) in *.
  assert (Hb : (7 <= length backing)%nat) by (unfold cap in Hc; fold backing in Hc; lia).
  set (t := mk _ _).
  assert (Ht : len t = 2).
  { unfold len, t. cbn [elems]. rewrite length_firstn, length_skipn. lia. }
  rewrite Uint16_ok by lia. cbn [bind].
  set (lc := u16 (at_ t 0) (at_ t 1)).
  assert (Hlc : 0 <= lc < 65536).
  { apply u16_bytes_range; unfold at_, t; cbn [elems];
      rewrite nth_firstn, nth_skipn;
      match goal with |- context [(?a <? ?b)%nat] =>
        destruct (Nat.ltb_spec a b); [| lia] end;
      (apply Forall_nth_lt; [exact Hwf | fold backing; lia]). }
  exists lc.
  destruct (Z.eqb_spec lc (len c - 4 - 3)); [lia |].
  destruct (Z.eqb_spec lc (len c - 4 - 3 - 2)); [lia |].
  reflexivity.
Qed.

Lemma at_is_byte (i : Z) : slice_wf c -> 0 <= i < len c -> is_byte (at_ c i).
Proof.
  intros Hwf Hi. unfold at_. apply Forall_nth_lt.
  - unfold slice_wf in Hwf. apply Forall_app in Hwf. apply Hwf.
  - unfold len in Hi. lia.
Qed.

(** X2.  The only panic of [ParseCapdu]: exactly six bytes, a zero at
    position 4, and no spare capacity for the seventh. *)
Lemma ParseCapdu_panic_iff :
  slice_wf c ->
  ParseCapdu c = Panic <-> len c = 6 /\ at_ c 4 = 0 /\ cap c < 7.
Proof.
  intros Hwf. rewrite ParseCapdu_eq.
  destruct (Z.ltb_spec (len c) 4) as [H4 | H4]; cbn [orb];
    [split; [discriminate | lia] |].
  rewrite Z.gtb_ltb.
  destruct (Z.ltb_spec 65544 (len c)) as [Hmax | Hmax];
    [split; [discriminate | lia] |].
  destruct (Z.eqb_spec (len c) 4) as [E4 | E4];
    [split; [discriminate | lia] |].
  rewrite Z.gtb_ltb.
  destruct (Z.eqb_spec (at_ c 4) 0) as [Hz | Hz];
    destruct (Z.ltb_spec 5 (len c)) as [H5 | H5]; cbn [andb].
  - destruct (Z.eq_dec (len c) 6) as [E6 | E6].
    + destruct (Z.lt_ge_cases (cap c) 7) as [Hc | Hc].
      * rewrite parseCapduExtendedLength_len6_panic by assumption. tauto.
      * destruct (parseCapduExtendedLength_len6_err E6 Hc Hwf) as [lc ->].
        split; [discriminate | lia].
    + rewrite parseCapduExtendedLength_eq by lia.
      assert (Hlc : 0 <= u16 (at_ c 5) (at_ c 6) < 65536)
        by (apply u16_bytes_range; apply at_is_byte; (assumption || lia)).
      destruct (len c =? 7); [split; [discriminate | lia] |]. cbv zeta.
      destruct (_ =? len c - 7); [split; [discriminate | lia] |].
      destruct (_ =? len c - 9); [| split; [discriminate | lia]].
      destruct (Z.ltb_spec (u16 (at_ c 5) (at_ c 6)) 0); [lia |].
      split; [discriminate | lia].
  - rewrite parseCapduStandardLength_eq by lia.
    destruct (len c =? 5); [split; [discriminate | lia] |]. cbv zeta.
    destruct (_ =? len c - 5); [split; [discriminate | lia] |].
    destruct (_ =? len c - 6); split; (discriminate || lia).
  - rewrite parseCapduStandardLength_eq by lia.
    destruct (len c =? 5); [split; [discriminate | lia] |]. cbv zeta.
    destruct (_ =? len c - 5); [split; [discriminate | lia] |].
    destruct (_ =? len c - 6); split; (discriminate || lia).
  - rewrite parseCapduStandardLength_eq by lia.
    destruct (len c =? 5); [split; [discriminate | lia] |]. cbv zeta.
    destruct (_ =? len c - 5); [split; [discriminate | lia] |].
    destruct (_ =? len c - 6); split; (discriminate || lia).
Qed.

End ParseCapduEquation.

(** ** The parser on each wire layout *)

Lemma firstn_llen_app (data rest : list byte) :
  firstn (Z.to_nat (llen data)) (data ++ rest) = data.
Proof.
  unfold llen. rewrite Nat2Z.id, firstn_app, firstn_all, Nat.sub_diag.
  simpl. apply app_nil_r.
Qed.

Lemma firstn_llen (data : list byte) :
  firstn (Z.to_nat (llen data)) data = data.
Proof. unfold llen. rewrite Nat2Z.id. apply firstn_all. Qed.

Section WireLayouts.
Variables (cla ins p1 p2 : byte) (sp : list byte).

Local Abbreviation slice l := (Slice.mk l sp).

Lemma len_slice (l : list byte) : Slice.len (slice l) = llen l.
Proof. reflexivity. Qed.

Lemma llen_cons (a : byte) (l : list byte) : llen (a :: l) = 1 + llen l.
Proof. unfold llen. cbn [length]. lia. Qed.

Lemma llen_app (l l' : list byte) : llen (l ++ l') = llen l + llen l'.
Proof. unfold llen. rewrite length_app. lia. Qed.

Lemma llen_nil : llen [] = 0.
Proof. reflexivity. Qed.

Lemma hdr_slice (l data : list byte) (ne : Z) :
  hdr (slice (cla :: ins :: p1 :: p2 :: l)) data ne
  = Capdu.mk cla ins p1 p2 data ne.
Proof. reflexivity. Qed.

Lemma at4_slice (x : byte) (l : list byte) :
  at_ (slice (cla :: ins :: p1 :: p2 :: x :: l)) 4 = x.
Proof. reflexivity. Qed.

Lemma at_last (l : list byte) (y : byte) (i : Z) :
  i = llen l -> at_ (slice (l ++ [y])) i = y.
Proof.
  intros ->. unfold at_, llen. cbn [Slice.elems].
  rewrite Nat2Z.id. apply nth_middle.
Qed.

Lemma at_last2 (l : list byte) (x y : byte) (i : Z) :
  i = llen l -> at_ (slice (l ++ [x; y])) i = x.
Proof.
  intros ->. unfold at_, llen. cbn [Slice.elems].
  rewrite Nat2Z.id. apply nth_middle.
Qed.

Lemma at_last2_snd (l : list byte) (x y : byte) (i : Z) :
  i = llen l + 1 -> at_ (slice (l ++ [x; y])) i = y.
Proof.
  intros ->. unfold at_, llen. cbn [Slice.elems].
  rewrite app_nth2 by lia.
  replace (Z.to_nat (Z.of_nat (length l) + 1) - length l)%nat with 1%nat by lia.
  reflexivity.
Qed.

(** Case 1: the header alone. *)
Lemma parse_header :
  ParseCapdu (slice [cla; ins; p1; p2]) = Ok (Capdu.mk cla ins p1 p2 [] 0).
Proof. reflexivity. Qed.

(** Standard case 2: header, Le. *)
Lemma parse_std_le (le : byte) :
  ParseCapdu (slice [cla; ins; p1; p2; le])
  = Ok (Capdu.mk cla ins p1 p2 [] (ne_std le)).
Proof.
  rewrite ParseCapdu_eq. change (Slice.len (slice [cla; ins; p1; p2; le])) with 5.
  cbn [Z.ltb Z.gtb Z.eqb Z.compare Pos.compare Pos.compare_cont Pos.eqb orb andb].
  rewrite andb_false_r.
  rewrite parseCapduStandardLength_eq by (cbn; lia). reflexivity.
Qed.

(** Extended case 2: header, zero marker, two bytes of Le. *)
Lemma parse_ext_le (h l : byte) :
  ParseCapdu (slice [cla; ins; p1; p2; 0; h; l])
  = Ok (Capdu.mk cla ins p1 p2 [] (ne_ext (u16 h l))).
Proof.
  rewrite ParseCapdu_eq. rewrite parseCapduExtendedLength_eq by (cbn; lia).
  reflexivity.
Qed.

(** Standard case 3: header, Lc, data. *)
Lemma parse_std_lc (data : list byte) :
  1 <= llen data <= 65535 ->
  ParseCapdu (slice (cla :: ins :: p1 :: p2 :: llen data :: data))
  = Ok (Capdu.mk cla ins p1 p2 data 0).
Proof.
  intros Hd. rewrite ParseCapdu_eq, at4_slice.
  rewrite !Z.gtb_ltb, len_slice, !llen_cons.
  repeat decide_test. cbn [orb andb].
  rewrite parseCapduStandardLength_eq by (rewrite len_slice, !llen_cons; lia).
  rewrite at4_slice, len_slice, !llen_cons. cbv zeta.
  repeat decide_test.
  rewrite hdr_slice. unfold body. cbn [Slice.elems].
  change (Z.to_nat 5) with 5%nat. cbn [skipn].
  now rewrite firstn_llen.
Qed.

(** Standard case 4: header, Lc, data, Le. *)
Lemma parse_std_lc_le (data : list byte) (le : byte) :
  1 <= llen data <= 65535 ->
  ParseCapdu (slice (cla :: ins :: p1 :: p2 :: llen data :: data ++ [le]))
  = Ok (Capdu.mk cla ins p1 p2 data (ne_std le)).
Proof.
  intros Hd. rewrite ParseCapdu_eq, at4_slice.
  rewrite !Z.gtb_ltb, len_slice, !llen_cons, llen_app, !llen_cons, llen_nil.
  repeat decide_test. cbn [orb andb].
  rewrite parseCapduStandardLength_eq
    by (rewrite len_slice, !llen_cons, llen_app, !llen_cons, llen_nil; lia).
  rewrite at4_slice, len_slice, !llen_cons, llen_app, !llen_cons, llen_nil.
  cbv zeta. repeat decide_test.
  rewrite hdr_slice. unfold body. cbn [Slice.elems].
  change (Z.to_nat 5) with 5%nat. cbn [skipn].
  rewrite firstn_llen_app.
  change (cla :: ins :: p1 :: p2 :: llen data :: data ++ [le])
    with ((cla :: ins :: p1 :: p2 :: llen data :: data) ++ [le]).
  rewrite at_last by (rewrite !llen_cons; lia).
  reflexivity.
Qed.

(** Extended case 3: header, zero marker, two bytes of Lc, data. *)
Lemma parse_ext_lc (h l : byte) (data : list byte) :
  u16 h l = llen data -> 1 <= llen data <= 65535 ->
  ParseCapdu (slice (cla :: ins :: p1 :: p2 :: 0 :: h :: l :: data))
  = Ok (Capdu.mk cla ins p1 p2 data 0).
Proof.
  intros Hu Hd. rewrite ParseCapdu_eq, at4_slice.
  rewrite !Z.gtb_ltb, len_slice, !llen_cons.
  repeat decide_test. cbn [orb andb].
  rewrite parseCapduExtendedLength_eq by (rewrite len_slice, !llen_cons; lia).
  rewrite len_slice, !llen_cons.
  change (at_ (slice (cla :: ins :: p1 :: p2 :: 0 :: h :: l :: data)) 5) with h.
  change (at_ (slice (cla :: ins :: p1 :: p2 :: 0 :: h :: l :: data)) 6) with l.
  rewrite Hu. cbv zeta. repeat decide_test.
  rewrite hdr_slice. unfold body. cbn [Slice.elems].
  change (Z.to_nat 7) with 7%nat. cbn [skipn].
  now rewrite firstn_llen.
Qed.

(** Extended case 4: header, zero marker, Lc, data, two bytes of Le. *)
Lemma parse_ext_lc_le (h l eh el : byte) (data : list byte) :
  u16 h l = llen data -> 1 <= llen data <= 65535 ->
  ParseCapdu (slice (cla :: ins :: p1 :: p2 :: 0 :: h :: l :: data ++ [eh; el]))
  = Ok (Capdu.mk cla ins p1 p2 data (ne_ext (u16 eh el))).
Proof.
  intros Hu Hd. rewrite ParseCapdu_eq, at4_slice.
  rewrite !Z.gtb_ltb, len_slice, !llen_cons, llen_app, !llen_cons, llen_nil.
  repeat decide_test. cbn [orb andb].
  rewrite parseCapduExtendedLength_eq
    by (rewrite len_slice, !llen_cons, llen_app, !llen_cons, llen_nil; lia).
  rewrite len_slice, !llen_cons, llen_app, !llen_cons, llen_nil.
  change (at_ (slice (cla :: ins :: p1 :: p2 :: 0 :: h :: l :: data ++ [eh; el])) 5)
    with h.
  change (at_ (slice (cla :: ins :: p1 :: p2 :: 0 :: h :: l :: data ++ [eh; el])) 6)
    with l.
  rewrite Hu. cbv zeta. repeat decide_test.
  rewrite hdr_slice. unfold body. cbn [Slice.elems].
  change (Z.to_nat 7) with 7%nat. cbn [skipn].
  rewrite firstn_llen_app.
  change (cla :: ins :: p1 :: p2 :: 0 :: h :: l :: data ++ [eh; el])
    with ((cla :: ins :: p1 :: p2 :: 0 :: h :: l :: data) ++ [eh; el]).
  rewrite at_last2 by (rewrite !llen_cons; lia).
  rewrite at_last2_snd by (rewrite !llen_cons; lia).
  reflexivity.
Qed.

End WireLayouts.

(** ** The serialiser on each case and format *)

Section BytesShapes.
Import Capdu.

Variable c : Capdu.t.

Lemma dlen_nonneg : 0 <= dlen c.
Proof. unfold dlen. lia. Qed.

Lemma determineCase_1 : dlen c = 0 -> Ne c = 0 -> determineCase c = 1.
Proof. intros Hd Hn. unfold determineCase. rewrite Hd, Hn. reflexivity. Qed.

Lemma determineCase_2 : dlen c = 0 -> 0 < Ne c -> determineCase c = 2.
Proof.
  intros Hd Hn. unfold determineCase. rewrite Hd, Z.gtb_ltb.
  destruct (Z.eqb_spec (Ne c) 0); [lia |].
  destruct (Z.ltb_spec 0 (Ne c)); [reflexivity | lia].
Qed.

Lemma determineCase_3 : 0 < dlen c -> Ne c = 0 -> determineCase c = 3.
Proof.
  intros Hd Hn. unfold determineCase. rewrite Hn.
  destruct (Z.eqb_spec (dlen c) 0); [lia | reflexivity].
Qed.

Lemma determineCase_4 :
  Ne c <> 0 -> 0 < dlen c \/ Ne c < 0 -> determineCase c = 4.
Proof.
  intros Hn Hd. unfold determineCase. rewrite Z.gtb_ltb.
  destruct (Z.eqb_spec (Ne c) 0); [lia |].
  destruct (Z.eqb_spec (dlen c) 0); [| reflexivity].
  destruct (Z.ltb_spec 0 (Ne c)); [lia | reflexivity].
Qed.

Lemma data_upto_ok (n : Z) :
  0 <= n <= dlen c -> data_upto c n = Ok (firstn (Z.to_nat n) (Data c)).
Proof.
  intros H. unfold data_upto.
  destruct (Z.ltb_spec n 0); [lia |].
  destruct (Z.ltb_spec (dlen c) n); [lia | reflexivity].
Qed.

Lemma data_upto_wire :
  data_upto c (wire_dlen c) = Ok (firstn (Z.to_nat (wire_dlen c)) (Data c)).
Proof. apply data_upto_ok. pose proof dlen_nonneg. unfold wire_dlen. lia. Qed.

Lemma clamp_dlen :
  (if dlen c >? 65535 then 65535 else dlen c) = (wire_dlen c).
Proof.
  rewrite Z.gtb_ltb. unfold wire_dlen.
  destruct (Z.ltb_spec 65535 (dlen c)); lia.
Qed.

Lemma clamp_ne :
  (if Ne c >? 65536 then 65536 else Ne c) = (wire_ne c).
Proof.
  rewrite Z.gtb_ltb. unfold wire_ne.
  destruct (Z.ltb_spec 65536 (Ne c)); lia.
Qed.

(** The two bytes of an extended Le: zero stands for 65536. *)
Lemma le_bytes :
  (if (wire_ne c) =? 65536 then [0; 0]
   else [byte_of_int (Z.land (Z.shiftr (Ne c) 8) 255);
         byte_of_int (Z.land (Ne c) 255)])
  = [hi8 (wire_ne c); lo8 (wire_ne c)].
Proof.
  unfold wire_ne.
  destruct (Z.eqb_spec (Z.min (Ne c) 65536) 65536) as [-> | Hne];
    [reflexivity |].
  replace (Z.min (Ne c) 65536) with (Ne c) by lia. reflexivity.
Qed.

Lemma Bytes_case1 : dlen c = 0 -> Ne c = 0 -> Bytes c = Ok (header c).
Proof.
  intros Hd Hn. unfold Bytes. rewrite determineCase_1 by assumption.
  reflexivity.
Qed.

Lemma Bytes_case2_std :
  dlen c = 0 -> 0 < Ne c <= 256 ->
  Bytes c = Ok (header c ++ [byte_of_int (Ne c)]).
Proof.
  intros Hd Hn. unfold Bytes. rewrite determineCase_2 by (assumption || lia).
  consts. change (2 =? 1) with false. change (2 =? 2) with true. cbv iota.
  rewrite Z.gtb_ltb. destruct (Z.ltb_spec 256 (Ne c)); [lia |].
  destruct (Z.eqb_spec (Ne c) 256) as [-> | ]; reflexivity.
Qed.

Lemma Bytes_case2_ext :
  dlen c = 0 -> 256 < Ne c -> Bytes c = Ok (header c ++ ext3 (wire_ne c)).
Proof.
  intros Hd Hn. unfold Bytes. rewrite determineCase_2 by (assumption || lia).
  consts. change (2 =? 1) with false. change (2 =? 2) with true. cbv iota.
  rewrite (Z.gtb_ltb (Ne c) 256). destruct (Z.ltb_spec 256 (Ne c)); [| lia].
  cbv zeta. rewrite clamp_ne. unfold wire_ne.
  destruct (Z.eqb_spec (Z.min (Ne c) 65536) 65536) as [-> | Hne];
    [reflexivity |].
  replace (Z.min (Ne c) 65536) with (Ne c) by lia. reflexivity.
Qed.

Lemma Bytes_case3_std :
  0 < dlen c <= 255 -> Ne c = 0 ->
  Bytes c = Ok (header c ++ [byte_of_int (dlen c)] ++ Data c).
Proof.
  intros Hd Hn. unfold Bytes. rewrite determineCase_3 by (assumption || lia).
  consts. change (3 =? 1) with false. change (3 =? 2) with false.
  change (3 =? 3) with true. cbv iota.
  rewrite Z.gtb_ltb. destruct (Z.ltb_spec 255 (dlen c)); [lia | reflexivity].
Qed.

Lemma Bytes_case3_ext :
  255 < dlen c -> Ne c = 0 ->
  Bytes c = Ok (header c ++ ext3 (wire_dlen c)
                       ++ firstn (Z.to_nat (wire_dlen c)) (Data c)).
Proof.
  intros Hd Hn. unfold Bytes. rewrite determineCase_3 by (assumption || lia).
  consts. change (3 =? 1) with false. change (3 =? 2) with false.
  change (3 =? 3) with true. cbv iota.
  rewrite (Z.gtb_ltb (dlen c) 255). destruct (Z.ltb_spec 255 (dlen c)); [| lia].
  cbv zeta. rewrite clamp_dlen, data_upto_wire. reflexivity.
Qed.

Lemma Bytes_case4_std :
  Ne c <> 0 -> 0 < dlen c \/ Ne c < 0 -> Ne c <= 256 -> dlen c <= 255 ->
  Bytes c = Ok (header c ++ [byte_of_int (dlen c)] ++ Data c
                       ++ [byte_of_int (Ne c)]).
Proof.
  intros Hn Hd Hn' Hd'. unfold Bytes. rewrite determineCase_4 by assumption.
  consts. change (4 =? 1) with false. change (4 =? 2) with false.
  change (4 =? 3) with false. cbv iota.
  rewrite !Z.gtb_ltb. destruct (Z.ltb_spec 256 (Ne c)); [lia |].
  destruct (Z.ltb_spec 255 (dlen c)); [lia | reflexivity].
Qed.

Lemma Bytes_case4_ext :
  Ne c <> 0 -> 0 < dlen c \/ Ne c < 0 -> 256 < Ne c \/ 255 < dlen c ->
  Bytes c = Ok (header c ++ ext3 (wire_dlen c)
                       ++ firstn (Z.to_nat (wire_dlen c)) (Data c)
                       ++ [hi8 (wire_ne c); lo8 (wire_ne c)]).
Proof.
  intros Hn Hd Hx. unfold Bytes. rewrite determineCase_4 by assumption.
  consts. change (4 =? 1) with false. change (4 =? 2) with false.
  change (4 =? 3) with false. cbv iota.
  assert (Hext : (Ne c >? 256) || (dlen c >? 255) = true).
  { rewrite !Z.gtb_ltb. apply orb_true_iff.
    destruct Hx; [left | right]; apply Z.ltb_lt; assumption. }
  rewrite Hext. cbv zeta.
  rewrite clamp_dlen, clamp_ne, data_upto_wire, le_bytes. reflexivity.
Qed.

End BytesShapes.

(** ** Decoding what the serialiser encoded *)

Lemma ne_std_byte (n : Z) : 1 <= n <= 256 -> ne_std (byte_of_int n) = n.
Proof.
  intros H. unfold ne_std.
  destruct (Z.eq_dec n 256) as [-> | Hn]; [reflexivity |].
  rewrite byte_of_int_small by lia.
  destruct (Z.eqb_spec n 0); [lia | reflexivity].
Qed.

Lemma ne_ext_u16 (n : Z) :
  1 <= n <= 65536 -> ne_ext (u16 (hi8 n) (lo8 n)) = n.
Proof.
  intros H. unfold ne_ext.
  destruct (Z.eq_dec n 65536) as [-> | Hn]; [reflexivity |].
  rewrite u16_hi8_lo8 by lia.
  destruct (Z.eqb_spec n 0); [lia | reflexivity].
Qed.

Lemma ext3_bytes (n : Z) : Capdu.ext3 n = [0; hi8 n; lo8 n].
Proof. reflexivity. Qed.

(** Round trip on the values of the data model; [sp] is the spare
    capacity of the slice that holds the encoding. *)
Lemma parse_Bytes_valid (c : Capdu.t) (sp : list byte) :
  0 <= Capdu.Ne c <= 65536 ->
  Capdu.dlen c <= 65535 ->
  exists bs, Capdu.Bytes c = Ok bs /\ ParseCapdu (Slice.mk bs sp) = Ok c.
Proof.
  intros Hne Hdl.
  pose proof (dlen_nonneg c) as Hd0.
  destruct c as [cla ins p1 p2 data ne]. cbn [Capdu.Ne] in Hne.
  change (Capdu.dlen _) with (llen data) in Hdl, Hd0.
  set (c := Capdu.mk cla ins p1 p2 data ne).
  assert (Hwd : llen data <= 65535 -> wire_dlen c = llen data)
    by (intros; unfold wire_dlen; change (Capdu.dlen c) with (llen data); lia).
  assert (Hwn : wire_ne c = ne)
    by (unfold wire_ne; cbn [Capdu.Ne c]; lia).
  assert (Hdc : Capdu.dlen c = llen data) by reflexivity.
  assert (Hnc : Capdu.Ne c = ne) by reflexivity.
  destruct (Z.eq_dec (llen data) 0) as [Hd | Hd].
  - (* no data: cases 1 and 2 *)
    assert (data = []) as Hnil by (destruct data; [reflexivity | discriminate]).
    destruct (Z.eq_dec ne 0) as [Hn | Hn].
    + exists (header c). split; [apply Bytes_case1; rewrite ?Hdc, ?Hnc; lia |].
      subst c data ne. apply parse_header.
    + destruct (Z_le_gt_dec ne 256) as [Hs | Hx].
      * eexists. split; [apply Bytes_case2_std; rewrite ?Hdc, ?Hnc; lia |].
        cbn [header app Capdu.Cla Capdu.Ins Capdu.P1 Capdu.P2 Capdu.Ne c].
        rewrite parse_std_le, ne_std_byte by lia. subst c data. reflexivity.
      * eexists. split; [apply Bytes_case2_ext; rewrite ?Hdc, ?Hnc; lia |].
        rewrite Hwn, ext3_bytes.
        cbn [header app Capdu.Cla Capdu.Ins Capdu.P1 Capdu.P2 c].
        rewrite parse_ext_le, ne_ext_u16 by lia. subst c data. reflexivity.
  - (* data: cases 3 and 4 *)
    destruct (Z.eq_dec ne 0) as [Hn | Hn];
      destruct (Z_le_gt_dec (llen data) 255) as [Hds | Hdx].
    + eexists. split; [apply Bytes_case3_std; rewrite ?Hdc, ?Hnc; lia |].
      rewrite Hdc.
      rewrite byte_of_int_small by lia.
      cbn [header app Capdu.Cla Capdu.Ins Capdu.P1 Capdu.P2 Capdu.Data c].
      rewrite parse_std_lc by lia. subst c ne. reflexivity.
    + eexists. split; [apply Bytes_case3_ext; rewrite ?Hdc, ?Hnc; lia |].
      rewrite Hwd, ext3_bytes by lia. cbn [Capdu.Data c].
      rewrite firstn_llen.
      cbn [header app Capdu.Cla Capdu.Ins Capdu.P1 Capdu.P2 c].
      rewrite parse_ext_lc by (try apply u16_hi8_lo8; lia).
      subst c ne. reflexivity.
    + destruct (Z_le_gt_dec ne 256) as [Hs | Hx].
      * eexists. split;
          [apply Bytes_case4_std; rewrite ?Hdc, ?Hnc; lia |].
        rewrite Hdc.
        rewrite byte_of_int_small by lia.
        cbn [header app Capdu.Cla Capdu.Ins Capdu.P1 Capdu.P2 Capdu.Data Capdu.Ne c].
        rewrite parse_std_lc_le, ne_std_byte by lia. reflexivity.
      * eexists. split;
          [apply Bytes_case4_ext; rewrite ?Hdc, ?Hnc; lia |].
        rewrite Hwd, Hwn, ext3_bytes by lia. cbn [Capdu.Data c].
        rewrite firstn_llen.
        cbn [header app Capdu.Cla Capdu.Ins Capdu.P1 Capdu.P2 c].
        rewrite parse_ext_lc_le by (try apply u16_hi8_lo8; lia).
        rewrite ne_ext_u16 by lia. reflexivity.
    + eexists. split;
        [apply Bytes_case4_ext; rewrite ?Hdc, ?Hnc; lia |].
      rewrite Hwd, Hwn, ext3_bytes by lia. cbn [Capdu.Data c].
      rewrite firstn_llen.
      cbn [header app Capdu.Cla Capdu.Ins Capdu.P1 Capdu.P2 c].
      rewrite parse_ext_lc_le by (try apply u16_hi8_lo8; lia).
      rewrite ne_ext_u16 by lia. reflexivity.
Qed.

(** C1.  Round trip: for every Capdu [c] with [0 <= Ne <= 65536] and at
    most 65535 bytes of data, [Capdu.Bytes] returns an encoding, and
    [ParseCapdu] on a slice holding that encoding (whatever its spare
    capacity) returns [c] itself: the same Cla, Ins, P1, P2, Data and Ne.
    Data is compared as a sequence of bytes. *)
Theorem ParseCapdu_Bytes_roundtrip (c : Capdu.t) (sp : list byte) :
  0 <= Capdu.Ne c <= 65536 ->
  Capdu.dlen c <= 65535 ->
  exists bs, Capdu.Bytes c = Ok bs /\ ParseCapdu (Slice.mk bs sp) = Ok c.
Proof. apply parse_Bytes_valid. Qed.

(** The round trip of an extended case 4 command with Ne = 65536. *)
Lemma ParseCapdu_Bytes_roundtrip_witness :
  let c := Capdu.mk 0x00 0xA4 0x04 0x00 [1; 2; 3; 4; 5] 65536 in
  (0 <= Capdu.Ne c <= 65536) /\ (Capdu.dlen c <= 65535)
  /\ exists bs, Capdu.Bytes c = Ok bs /\ ParseCapdu (Slice.mk bs []) = Ok c.
Proof.
  cbv zeta. split; [by_eval |]. split; [by_eval |].
  apply ParseCapdu_Bytes_roundtrip; by_eval.
Defined.

(** C2.  The code does not keep the promise that [ParseCapdu] never
    panics: on the six bytes [00 A4 04 00 00 01], held in a slice without
    spare capacity, the zero at position 4 sends the input to
    [parseCapduExtendedLength], whose slice expression [c[5:7]] is out of
    range. *)
Theorem ParseCapdu_six_bytes_panics :
  ParseCapdu (Slice.of_list [0x00; 0xA4; 0x04; 0x00; 0x00; 0x01]) = Panic.
Proof. reflexivity. Qed.

(** C3.  After the length check, an input of more than four bytes goes to
    extended-length parsing exactly when the byte at position 4 is zero
    and at least one more byte follows; otherwise to standard-length
    parsing. *)
Theorem ParseCapdu_dispatch (c : Slice.t) :
  4 < Slice.len c <= 65544 ->
  ParseCapdu c = if (at_ c 4 =? 0) && (5 <? Slice.len c)
                 then parseCapduExtendedLength c
                 else parseCapduStandardLength c.
Proof.
  intros H. rewrite ParseCapdu_eq, !Z.gtb_ltb.
  destruct (Z.ltb_spec (Slice.len c) 4); [lia |].
  destruct (Z.ltb_spec 65544 (Slice.len c)); [lia |].
  destruct (Z.eqb_spec (Slice.len c) 4); [lia | reflexivity].
Qed.

(** The dispatch on an extended case 3 command. *)
Lemma ParseCapdu_dispatch_witness :
  let c := Slice.of_list [0x00; 0xA4; 0x04; 0x01; 0x00; 0x00; 0x03; 0x01; 0x02; 0x03] in
  4 < Slice.len c <= 65544
  /\ ParseCapdu c = if (at_ c 4 =? 0) && (5 <? Slice.len c)
                    then parseCapduExtendedLength c
                    else parseCapduStandardLength c.
Proof.
  cbv zeta. split; [by_eval |].
  apply ParseCapdu_dispatch. by_eval.
Defined.

(** C4.  A standard-length input with a body of at least two bytes (six
    bytes or more, the byte at position 4 not zero) fails with InvalidLc,
    reporting Lc, if and only if Lc is neither bodyLen-1 nor bodyLen-2;
    otherwise it succeeds and Data is the Lc bytes that follow the Lc
    byte.  Scenario D: [00 A4 04 01 05 01 02] fails with InvalidLc. *)
Theorem ParseCapdu_standard_Lc :
  (forall c : Slice.t,
      6 <= Slice.len c <= 65544 -> at_ c 4 <> 0 ->
      let lc := at_ c 4 in
      let bodyLen := Slice.len c - 4 in
      ((exists v, ParseCapdu c = Err (InvalidLc v))
       <-> lc <> bodyLen - 1 /\ lc <> bodyLen - 2)
      /\ (lc <> bodyLen - 1 /\ lc <> bodyLen - 2 ->
          ParseCapdu c = Err (InvalidLc lc))
      /\ (lc = bodyLen - 1 \/ lc = bodyLen - 2 ->
          exists ne, ParseCapdu c = Ok (hdr c (body c 5 lc) ne)))
  /\ ParseCapdu (Slice.of_list [0x00; 0xA4; 0x04; 0x01; 0x05; 0x01; 0x02])
     = Err (InvalidLc 5).
Proof.
  split; [| reflexivity].
  intros c Hlen Hnz lc bodyLen. subst lc bodyLen.
  rewrite ParseCapdu_eq, !Z.gtb_ltb.
  destruct (Z.ltb_spec (Slice.len c) 4); [lia |].
  destruct (Z.ltb_spec 65544 (Slice.len c)); [lia |].
  destruct (Z.eqb_spec (Slice.len c) 4); [lia |].
  destruct (Z.eqb_spec (at_ c 4) 0); [contradiction |]. cbn [orb andb].
  rewrite parseCapduStandardLength_eq by lia.
  destruct (Z.eqb_spec (Slice.len c) 5); [lia |]. cbv zeta.
  destruct (Z.eqb_spec (at_ c 4) (Slice.len c - 5)) as [Ha | Ha].
  - split; [split; [intros [v Hv]; discriminate | intros [? ?]; lia] |].
    split; [intros [? ?]; lia |]. intros _. eexists. reflexivity.
  - destruct (Z.eqb_spec (at_ c 4) (Slice.len c - 6)) as [Hb | Hb].
    + split; [split; [intros [v Hv]; discriminate | intros [? ?]; lia] |].
      split; [intros [? ?]; lia |]. intros _. eexists. reflexivity.
    + split; [split; [intros _; lia | intros _; eexists; reflexivity] |].
      split; [reflexivity | intros [? | ?]; lia].
Qed.

(** The Lc check on a standard case 4 command. *)
Lemma ParseCapdu_standard_Lc_witness :
  let c := Slice.of_list [0x00; 0xA4; 0x04; 0x00; 0x05; 0x01; 0x02; 0x03; 0x04; 0x05; 0x20] in
  6 <= Slice.len c <= 65544 /\ at_ c 4 <> 0
  /\ (at_ c 4 = Slice.len c - 4 - 1 \/ at_ c 4 = Slice.len c - 4 - 2 ->
      exists ne, ParseCapdu c = Ok (hdr c (body c 5 (at_ c 4)) ne)).
Proof.
  cbv zeta. split; [by_eval |]. split; [by_eval |].
  apply (proj1 ParseCapdu_standard_Lc); by_eval.
Defined.

(** C5.  Zero means maximum.  With no data, Ne = 256 is written as the
    single Le byte 00, and a five-byte input ending in 00 parses to
    Ne = 256; Ne = 65536 is written as the zero marker followed by the two
    Le bytes 00 00, and that seven-byte input parses to Ne = 65536. *)
Theorem Le_zero_means_maximum (cla ins p1 p2 : byte) (sp : list byte) :
  Capdu.Bytes (Capdu.mk cla ins p1 p2 [] 256) = Ok [cla; ins; p1; p2; 0]
  /\ ParseCapdu (Slice.mk [cla; ins; p1; p2; 0] sp)
     = Ok (Capdu.mk cla ins p1 p2 [] 256)
  /\ Capdu.Bytes (Capdu.mk cla ins p1 p2 [] 65536) = Ok [cla; ins; p1; p2; 0; 0; 0]
  /\ ParseCapdu (Slice.mk [cla; ins; p1; p2; 0; 0; 0] sp)
     = Ok (Capdu.mk cla ins p1 p2 [] 65536).
Proof.
  split; [reflexivity |]. split; [apply parse_std_le |].
  split; [reflexivity |]. apply parse_ext_le.
Qed.

(** ** The permissive policy of the serialisers *)

Section Truncation.
Variable c : Capdu.t.

Lemma Bytes_total : exists bs, Capdu.Bytes c = Ok bs.
Proof.
  pose proof (dlen_nonneg c) as Hd0.
  destruct (Z.eq_dec (Capdu.Ne c) 0) as [Hn | Hn];
    destruct (Z.eq_dec (Capdu.dlen c) 0) as [Hd | Hd];
    destruct (Z_le_gt_dec (Capdu.dlen c) 255) as [Hds | Hdx];
    destruct (Z_le_gt_dec (Capdu.Ne c) 256) as [Hs | Hx];
    destruct (Z_le_gt_dec (Capdu.Ne c) 0) as [Hneg | Hpos];
    try lia; eexists;
    first [ apply Bytes_case1; lia
          | apply Bytes_case2_std; lia
          | apply Bytes_case2_ext; lia
          | apply Bytes_case3_std; lia
          | apply Bytes_case3_ext; lia
          | apply Bytes_case4_std; lia
          | apply Bytes_case4_ext; lia ].
Qed.

Lemma truncated_dlen : Capdu.dlen (truncated c) = wire_dlen c.
Proof.
  unfold Capdu.dlen, truncated, wire_dlen, Capdu.dlen. cbn [Capdu.Data].
  rewrite length_firstn. lia.
Qed.

Lemma truncated_Ne : Capdu.Ne (truncated c) = wire_ne c.
Proof. reflexivity. Qed.

Lemma truncated_wire_dlen : wire_dlen (truncated c) = wire_dlen c.
Proof. unfold wire_dlen at 1. rewrite truncated_dlen. unfold wire_dlen. lia. Qed.

Lemma truncated_wire_ne : wire_ne (truncated c) = wire_ne c.
Proof. unfold wire_ne at 1. rewrite truncated_Ne. unfold wire_ne. lia. Qed.

Lemma truncated_data :
  firstn (Z.to_nat (wire_dlen c)) (Capdu.Data (truncated c))
  = firstn (Z.to_nat (wire_dlen c)) (Capdu.Data c).
Proof.
  unfold truncated. cbn [Capdu.Data]. rewrite firstn_firstn.
  f_equal. unfold wire_dlen. lia.
Qed.

Lemma truncated_small :
  Capdu.dlen c <= 65535 -> Capdu.Ne c <= 65536 -> truncated c = c.
Proof.
  intros Hd Hn. destruct c as [cla ins p1 p2 data ne].
  unfold truncated, Capdu.dlen in *. cbn [Capdu.Data Capdu.Ne Capdu.Cla Capdu.Ins Capdu.P1 Capdu.P2] in *.
  rewrite firstn_all2 by lia. rewrite Z.min_l by lia. reflexivity.
Qed.

Lemma Bytes_truncated : Capdu.Bytes (truncated c) = Capdu.Bytes c.
Proof.
  pose proof (dlen_nonneg c) as Hd0.
  destruct (Z_le_gt_dec (Capdu.dlen c) 255) as [Hds | Hdx];
    destruct (Z_le_gt_dec (Capdu.Ne c) 256) as [Hs | Hx];
    [now rewrite truncated_small by lia | | |].
  - (* Ne forces the extended format *)
    destruct (Z.eq_dec (Capdu.dlen c) 0) as [Hd | Hd].
    + rewrite (Bytes_case2_ext c), (Bytes_case2_ext (truncated c));
        rewrite ?truncated_dlen, ?truncated_Ne, ?truncated_wire_ne;
        unfold wire_dlen, wire_ne; (reflexivity || lia).
    + rewrite (Bytes_case4_ext c), (Bytes_case4_ext (truncated c));
        rewrite ?truncated_dlen, ?truncated_Ne, ?truncated_wire_ne,
          ?truncated_wire_dlen, ?truncated_data;
        unfold wire_dlen, wire_ne; (reflexivity || lia).
  - (* the data forces the extended format *)
    destruct (Z.eq_dec (Capdu.Ne c) 0) as [Hn | Hn].
    + rewrite (Bytes_case3_ext c), (Bytes_case3_ext (truncated c));
        rewrite ?truncated_dlen, ?truncated_Ne, ?truncated_wire_ne,
          ?truncated_wire_dlen, ?truncated_data;
        unfold wire_dlen, wire_ne; (reflexivity || lia).
    + rewrite (Bytes_case4_ext c), (Bytes_case4_ext (truncated c));
        rewrite ?truncated_dlen, ?truncated_Ne, ?truncated_wire_ne,
          ?truncated_wire_dlen, ?truncated_data;
        unfold wire_dlen, wire_ne; (reflexivity || lia).
  - destruct (Z.eq_dec (Capdu.Ne c) 0) as [Hn | Hn]; [lia |].
    rewrite (Bytes_case4_ext c), (Bytes_case4_ext (truncated c));
      rewrite ?truncated_dlen, ?truncated_Ne, ?truncated_wire_ne,
        ?truncated_wire_dlen, ?truncated_data;
      unfold wire_dlen, wire_ne; (reflexivity || lia).
Qed.

End Truncation.

Lemma Rapdu_Bytes_eq (r : Rapdu.t) :
  Rapdu.Bytes r
  = Ok (firstn (Z.to_nat 65536) (Rapdu.Data r) ++ [Rapdu.SW1 r; Rapdu.SW2 r]).
Proof.
  unfold Rapdu.Bytes, Rapdu.data_upto. consts. rewrite Z.gtb_ltb.
  assert (H0 : 0 <= Rapdu.dlen r) by (unfold Rapdu.dlen; lia).
  destruct (Z.ltb_spec 65536 (Rapdu.dlen r)) as [Hbig | Hsmall].
  - destruct (Z.ltb_spec 65536 0); [lia |].
    destruct (Z.ltb_spec (Rapdu.dlen r) 65536); [lia | reflexivity].
  - destruct (Z.ltb_spec (Rapdu.dlen r) 0); [lia |].
    destruct (Z.ltb_spec (Rapdu.dlen r) (Rapdu.dlen r)); [lia |].
    cbn [orb bind]. unfold Rapdu.dlen in *.
    rewrite Nat2Z.id, firstn_all, firstn_all2 by lia. reflexivity.
Qed.

(** C6.  The serialisers are total and permissive.  [Capdu.Bytes] returns
    an encoding for every Capdu, never an error or a panic, and it is the
    encoding of the value with Data cut to its first 65535 bytes and Ne
    cut to 65536; for Ne >= 0 that truncated value is what the encoding
    parses back to.  [Rapdu.Bytes] always returns the first 65536 bytes of
    Data followed by SW1 and SW2. *)
Theorem Bytes_permissive_total :
  (forall c : Capdu.t,
      exists bs, Capdu.Bytes c = Ok bs /\ Capdu.Bytes (truncated c) = Ok bs)
  /\ (forall (c : Capdu.t) (sp : list byte),
        0 <= Capdu.Ne c ->
        exists bs, Capdu.Bytes c = Ok bs
                   /\ ParseCapdu (Slice.mk bs sp) = Ok (truncated c))
  /\ (forall r : Rapdu.t,
        Rapdu.Bytes r
        = Ok (firstn (Z.to_nat 65536) (Rapdu.Data r)
                ++ [Rapdu.SW1 r; Rapdu.SW2 r])).
Proof.
  split; [| split].
  - intros c. destruct (Bytes_total c) as [bs Hbs].
    exists bs. split; [exact Hbs |]. now rewrite Bytes_truncated.
  - intros c sp Hne.
    destruct (parse_Bytes_valid (truncated c) sp) as [bs [Hbs Hp]].
    + rewrite truncated_Ne. unfold wire_ne. lia.
    + rewrite truncated_dlen. unfold wire_dlen. lia.
    + exists bs. split; [| exact Hp]. now rewrite <- Bytes_truncated.
  - apply Rapdu_Bytes_eq.
Qed.

(** Ne = 70000 is written, and read back, as 65536. *)
Lemma Bytes_permissive_total_witness :
  let c := Capdu.mk 0x00 0xB0 0x00 0x00 [] 70000 in
  0 <= Capdu.Ne c
  /\ exists bs, Capdu.Bytes c = Ok bs
                /\ ParseCapdu (Slice.mk bs []) = Ok (truncated c).
Proof.
  cbv zeta. split; [by_eval |].
  apply (proj1 (proj2 Bytes_permissive_total)). by_eval.
Defined.

(** C7.  The crossover between the formats, with Ne = 0: 255 bytes of
    data are written with the one-byte Lc [FF], 4+1+255 bytes in all; 256
    bytes with the three-byte Lc [00 01 00], 4+3+256 bytes in all.
    [Capdu.Lc] reports the same Lc bytes. *)
Theorem standard_extended_crossover (cla ins p1 p2 : byte) (data : list byte) :
  let c := Capdu.mk cla ins p1 p2 data 0 in
  (llen data = 255 ->
   Capdu.Lc c = [255]
   /\ Capdu.Bytes c = Ok ([cla; ins; p1; p2] ++ [255] ++ data)
   /\ llen ([cla; ins; p1; p2] ++ [255] ++ data) = 4 + 1 + 255)
  /\ (llen data = 256 ->
      Capdu.Lc c = [0; 1; 0]
      /\ Capdu.Bytes c = Ok ([cla; ins; p1; p2] ++ [0; 1; 0] ++ data)
      /\ llen ([cla; ins; p1; p2] ++ [0; 1; 0] ++ data) = 4 + 3 + 256).
Proof.
  intros c.
  assert (Hdc : Capdu.dlen c = llen data) by reflexivity.
  split; intros Hlen.
  - split; [| split].
    + unfold Capdu.Lc. rewrite Hdc, Hlen. reflexivity.
    + rewrite Bytes_case3_std by (rewrite ?Hdc; (reflexivity || lia)).
      rewrite Hdc, Hlen. reflexivity.
    + rewrite !llen_app, Hlen. reflexivity.
  - split; [| split].
    + unfold Capdu.Lc. rewrite Hdc, Hlen. reflexivity.
    + rewrite Bytes_case3_ext by (rewrite ?Hdc; (reflexivity || lia)).
      assert (Hw : wire_dlen c = 256) by (unfold wire_dlen; rewrite Hdc; lia).
      rewrite Hw. cbn [Capdu.Data c]. rewrite <- Hlen, firstn_llen.
      rewrite Hlen. reflexivity.
    + rewrite !llen_app, Hlen. reflexivity.
Qed.

(** Both sides of the crossover on concrete data. *)
Lemma standard_extended_crossover_witness :
  let d255 := repeat 0x5A 255 in
  let d256 := repeat 0x5A 256 in
  (llen d255 = 255 /\ llen d256 = 256)
  /\ Capdu.Bytes (Capdu.mk 0x00 0xD6 0x00 0x00 d255 0)
     = Ok ([0x00; 0xD6; 0x00; 0x00] ++ [255] ++ d255)
  /\ Capdu.Bytes (Capdu.mk 0x00 0xD6 0x00 0x00 d256 0)
     = Ok ([0x00; 0xD6; 0x00; 0x00] ++ [0; 1; 0] ++ d256).
Proof.
  cbv zeta. split; [by_eval |]. split.
  - apply (proj1 (standard_extended_crossover 0x00 0xD6 0x00 0x00 (repeat 0x5A 255))).
    by_eval.
  - apply (proj2 (standard_extended_crossover 0x00 0xD6 0x00 0x00 (repeat 0x5A 256))).
    by_eval.
Defined.

(** ** Response APDUs *)

Section ParseRapduEquation.
Import Slice SliceFacts.

Variable b : Slice.t.

Lemma ParseRapdu_eq :
  ParseRapdu b =
    if (len b <? 2) || (len b >? 65538) then Err (InvalidLength (len b))
    else if len b =? 2 then Ok (Rapdu.mk [] (at_ b 0) (at_ b 1))
    else Ok (Rapdu.mk (firstn (Z.to_nat (len b - 2)) (elems b))
                      (at_ b (len b - 2)) (at_ b (len b - 1))).
Proof.
  unfold ParseRapdu, upto. consts. rewrite !Z.gtb_ltb.
  destruct (Z.ltb_spec (len b) 2) as [H2 | H2]; [reflexivity |].
  destruct (Z.ltb_spec 65538 (len b)) as [Hmax | Hmax]; [reflexivity |].
  cbn [orb].
  destruct (Z.eqb_spec (len b) 2) as [E2 | E2].
  - rewrite !index_ok by lia. cbn [bind].
    destruct (Z.ltb_spec 2 (len b)); [lia | reflexivity].
  - cbn [bind]. destruct (Z.ltb_spec 2 (len b)); [| lia].
    destruct (sub_ok b 0 (len b - 2)) as [d [Hd He]]; try lia.
    rewrite Hd. cbn [bind]. rewrite !index_ok by lia. cbn [bind].
    rewrite He. change (Z.to_nat 0) with 0%nat. cbn [skipn].
    rewrite Z.sub_0_r. reflexivity.
Qed.

End ParseRapduEquation.

(** C8.  [ParseRapdu] fails with InvalidLength exactly when the length of
    the input is outside [2, 65538]; two bytes give no data and the two
    bytes as SW1 and SW2; a longer input within the bound gives all but
    the last two bytes as Data and the last two as SW1 and SW2. *)
Theorem ParseRapdu_spec :
  (forall b : Slice.t,
      (exists n, ParseRapdu b = Err (InvalidLength n))
      <-> Slice.len b < 2 \/ 65538 < Slice.len b)
  /\ (forall (sw1 sw2 : byte) (sp : list byte),
        ParseRapdu (Slice.mk [sw1; sw2] sp) = Ok (Rapdu.mk [] sw1 sw2))
  /\ (forall (data : list byte) (sw1 sw2 : byte) (sp : list byte),
        1 <= llen data <= 65536 ->
        ParseRapdu (Slice.mk (data ++ [sw1; sw2]) sp)
        = Ok (Rapdu.mk data sw1 sw2)).
Proof.
  split; [| split].
  - intros b. rewrite ParseRapdu_eq, Z.gtb_ltb.
    destruct (Z.ltb_spec (Slice.len b) 2); cbn [orb].
    + split; [lia | intros _; eexists; reflexivity].
    + destruct (Z.ltb_spec 65538 (Slice.len b)).
      * split; [lia | intros _; eexists; reflexivity].
      * destruct (Slice.len b =? 2);
          (split; [intros [n Hn]; discriminate | lia]).
  - reflexivity.
  - intros data sw1 sw2 sp Hd. rewrite ParseRapdu_eq, Z.gtb_ltb.
    rewrite len_slice, llen_app, !llen_cons, llen_nil.
    repeat decide_test. cbn [orb].
    rewrite at_last2 by lia. rewrite at_last2_snd by lia.
    cbn [Slice.elems].
    replace (llen data + (1 + (1 + 0)) - 2) with (llen data) by lia.
    now rewrite firstn_llen_app.
Qed.

(** A response with two bytes of data. *)
Lemma ParseRapdu_spec_witness :
  1 <= llen [0x6F; 0x00] <= 65536
  /\ ParseRapdu (Slice.mk ([0x6F; 0x00] ++ [0x90; 0x00]) [])
     = Ok (Rapdu.mk [0x6F; 0x00] 0x90 0x00).
Proof.
  split; [by_eval |].
  apply (proj2 (proj2 ParseRapdu_spec)). by_eval.
Defined.

(** ** Status words *)

Lemma IsSuccess_iff (r : Rapdu.t) :
  Rapdu.IsSuccess r = true
  <-> Rapdu.SW1 r = 0x61 \/ (Rapdu.SW1 r = 0x90 /\ Rapdu.SW2 r = 0x00).
Proof.
  unfold Rapdu.IsSuccess.
  rewrite orb_true_iff, andb_true_iff, !Z.eqb_eq. reflexivity.
Qed.

Lemma IsWarning_iff (r : Rapdu.t) :
  Rapdu.IsWarning r = true <-> Rapdu.SW1 r = 0x62 \/ Rapdu.SW1 r = 0x63.
Proof.
  unfold Rapdu.IsWarning. rewrite orb_true_iff, !Z.eqb_eq. reflexivity.
Qed.

Lemma IsError_iff (r : Rapdu.t) :
  Rapdu.IsError r = true
  <-> Rapdu.SW1 r = 0x64 \/ Rapdu.SW1 r = 0x65
      \/ 0x67 <= Rapdu.SW1 r <= 0x6F.
Proof.
  unfold Rapdu.IsError.
  rewrite !orb_true_iff, andb_true_iff, !Z.eqb_eq, Z.geb_le, Z.leb_le.
  tauto.
Qed.

(** C9.  [IsWarning] holds exactly for SW1 = 62 or 63, [IsError] exactly
    for SW1 = 64, 65 or 67 to 6F; a status word with SW1 = 6A is an error
    and neither a success nor a warning. *)
Theorem status_ranges :
  (forall r : Rapdu.t,
      (Rapdu.IsWarning r = true <-> Rapdu.SW1 r = 0x62 \/ Rapdu.SW1 r = 0x63)
      /\ (Rapdu.IsError r = true
          <-> Rapdu.SW1 r = 0x64 \/ Rapdu.SW1 r = 0x65
              \/ 0x67 <= Rapdu.SW1 r <= 0x6F))
  /\ (forall (data : list byte) (sw2 : byte),
        Rapdu.IsError (Rapdu.mk data 0x6A sw2) = true
        /\ Rapdu.IsSuccess (Rapdu.mk data 0x6A sw2) = false
        /\ Rapdu.IsWarning (Rapdu.mk data 0x6A sw2) = false).
Proof.
  split.
  - intros r. split; [apply IsWarning_iff | apply IsError_iff].
  - intros data sw2. repeat split.
Qed.

(** C10.  No status word satisfies two of [IsSuccess], [IsWarning] and
    [IsError]. *)
Theorem status_predicates_disjoint (r : Rapdu.t) :
  Rapdu.IsSuccess r && Rapdu.IsWarning r = false
  /\ Rapdu.IsSuccess r && Rapdu.IsError r = false
  /\ Rapdu.IsWarning r && Rapdu.IsError r = false.
Proof.
  pose proof (IsSuccess_iff r) as Hs.
  pose proof (IsWarning_iff r) as Hw.
  pose proof (IsError_iff r) as He.
  destruct (Rapdu.IsSuccess r), (Rapdu.IsWarning r), (Rapdu.IsError r);
    cbn [andb]; repeat split;
    try reflexivity; exfalso;
    try (assert (Hs' := proj1 Hs eq_refl));
    try (assert (Hw' := proj1 Hw eq_refl));
    try (assert (He' := proj1 He eq_refl)); lia.
Qed.

(** ** Scenarios of the test suite *)

Example scenario_case1 :
  ParseCapdu (Slice.of_list [0x00; 0xA4; 0x04; 0x00])
  = Ok (Capdu.mk 0x00 0xA4 0x04 0x00 [] 0).
Proof. reflexivity. Qed.

Example scenario_standard_case4 :
  ParseCapdu (Slice.of_list
                [0x00; 0xA4; 0x04; 0x00; 0x05; 0x01; 0x02; 0x03; 0x04; 0x05; 0x20])
  = Ok (Capdu.mk 0x00 0xA4 0x04 0x00 [0x01; 0x02; 0x03; 0x04; 0x05] 32).
Proof. reflexivity. Qed.

Example scenario_extended_case3 :
  ParseCapdu (Slice.of_list
                [0x00; 0xA4; 0x04; 0x01; 0x00; 0x00; 0x03; 0x01; 0x02; 0x03])
  = Ok (Capdu.mk 0x00 0xA4 0x04 0x01 [0x01; 0x02; 0x03] 0).
Proof. reflexivity. Qed.

Example scenario_extended_Lc_too_big :
  ParseCapdu (Slice.of_list
                [0x00; 0xA4; 0x04; 0x01; 0x00; 0x00; 0x05; 0x01; 0x02; 0x03; 0x04])
  = Err (InvalidLc 5).
Proof. reflexivity. Qed.

Example scenario_rapdu_success :
  ParseRapdu (Slice.of_list [0x90; 0x00]) = Ok (Rapdu.mk [] 0x90 0x00)
  /\ Rapdu.IsSuccess (Rapdu.mk [] 0x90 0x00) = true.
Proof. split; reflexivity. Qed.

(** The six-byte input in a slice with spare capacity, for instance one
    cut from a longer buffer: the parser reads the first byte beyond the
    length as the low byte of Lc and returns an error. *)
Example six_bytes_with_spare_capacity :
  ParseCapdu (Slice.mk [0x00; 0xA4; 0x04; 0x00; 0x00; 0x01]
                       [0x30; 0x30; 0x30; 0x30; 0x30; 0x31])
  = Err (InvalidLc 0x0130).
Proof. reflexivity. Qed.

(** * Further properties of the parsers *)

Section ParseCapduOutcomes.
Import Slice SliceFacts.

Variable c : Slice.t.

Lemma sub_cases (lo hi : Z) :
  sub c lo hi = Panic \/ exists t, sub c lo hi = Ok t.
Proof.
  unfold sub. destruct ((lo <? 0) || (hi <? lo) || (cap c <? hi));
    [left; reflexivity | right; eexists; reflexivity].
Qed.

Lemma index_cases (s : Slice.t) (i : Z) :
  index s i = Panic \/ exists b, index s i = Ok b.
Proof.
  unfold index. destruct ((i <? 0) || (len s <=? i)); [left; reflexivity |].
  destruct (nth_error (elems s) (Z.to_nat i));
    [right; eexists; reflexivity | left; reflexivity].
Qed.

Lemma Uint16_cases (s : Slice.t) :
  Uint16 s = Panic \/ exists v, Uint16 s = Ok v.
Proof.
  unfold Uint16.
  destruct (index_cases s 1) as [-> | [b1 ->]]; [left; reflexivity |].
  destruct (index_cases s 0) as [-> | [b0 ->]]; [left; reflexivity |].
  right. eexists. reflexivity.
Qed.

(** Six bytes sent to the extended parser never yield a command. *)
Lemma parseCapduExtendedLength_len6_cases :
  len c = 6 ->
  parseCapduExtendedLength c = Panic
  \/ exists lc, parseCapduExtendedLength c = Err (InvalidLc lc).
Proof.
  intros H6. unfold parseCapduExtendedLength. consts.
  destruct (Z.eqb_spec (len c) (4 + 3)); [lia |].
  destruct (sub_cases 5 (5 + 2)) as [-> | [t ->]]; [left; reflexivity |].
  cbn [bind].
  destruct (Uint16_cases t) as [-> | [lc ->]]; [left; reflexivity |].
  cbn [bind].
  destruct (Z.eqb_spec lc (len c - 4 - 3)) as [E1 | E1]; cbn [negb andb].
  - left. rewrite sub_panic by lia. reflexivity.
  - destruct (Z.eqb_spec lc (len c - 4 - 3 - 2)) as [E2 | E2]; cbn [negb].
    + left. rewrite sub_panic by lia. reflexivity.
    + right. eexists. reflexivity.
Qed.

(** Inside the length bounds the only error is InvalidLc. *)
Lemma ParseCapdu_in_range_cases :
  4 <= len c <= 65544 ->
  ParseCapdu c = Panic
  \/ (exists lc, ParseCapdu c = Err (InvalidLc lc))
  \/ (exists r, ParseCapdu c = Ok r).
Proof.
  intros Hlen. rewrite ParseCapdu_eq, !Z.gtb_ltb.
  destruct (Z.ltb_spec (len c) 4); [lia |].
  destruct (Z.ltb_spec 65544 (len c)); [lia |]. cbn [orb].
  destruct (Z.eqb_spec (len c) 4); [right; right; eexists; reflexivity |].
  destruct ((at_ c 4 =? 0) && (5 <? len c)) eqn:Hx.
  - apply andb_true_iff in Hx. destruct Hx as [_ H5]. apply Z.ltb_lt in H5.
    destruct (Z.eq_dec (len c) 6) as [E6 | E6].
    + destruct (parseCapduExtendedLength_len6_cases E6) as [-> | [lc ->]];
        [left; reflexivity | right; left; eexists; reflexivity].
    + rewrite parseCapduExtendedLength_eq by lia.
      destruct (len c =? 7); [right; right; eexists; reflexivity |]. cbv zeta.
      destruct (_ =? len c - 7); [right; right; eexists; reflexivity |].
      destruct (_ =? len c - 9); [| right; left; eexists; reflexivity].
      destruct (_ <? 0); [left; reflexivity | right; right; eexists; reflexivity].
  - rewrite parseCapduStandardLength_eq by lia.
    destruct (len c =? 5); [right; right; eexists; reflexivity |]. cbv zeta.
    destruct (_ =? len c - 5); [right; right; eexists; reflexivity |].
    destruct (_ =? len c - 6);
      [right; right; eexists; reflexivity | right; left; eexists; reflexivity].
Qed.

End ParseCapduOutcomes.

(** X1.  [ParseCapdu] returns the InvalidLength error exactly for inputs
    shorter than 4 or longer than 65544 bytes, and the error carries the
    length of the input. *)
Theorem ParseCapdu_invalid_length (c : Slice.t) :
  ((exists n, ParseCapdu c = Err (InvalidLength n))
   <-> Slice.len c < 4 \/ 65544 < Slice.len c)
  /\ (forall n, ParseCapdu c = Err (InvalidLength n) -> n = Slice.len c).
Proof.
  destruct (Z_lt_ge_dec (Slice.len c) 4) as [Hlo | Hlo];
    [| destruct (Z_lt_ge_dec 65544 (Slice.len c)) as [Hhi | Hhi]].
  - assert (E : ParseCapdu c = Err (InvalidLength (Slice.len c))).
    { rewrite ParseCapdu_eq.
      destruct (Z.ltb_spec (Slice.len c) 4); [reflexivity | lia]. }
    rewrite E. split; [split; [lia | intros _; eexists; reflexivity] |].
    intros n Hn. congruence.
  - assert (E : ParseCapdu c = Err (InvalidLength (Slice.len c))).
    { rewrite ParseCapdu_eq, Z.gtb_ltb.
      destruct (Z.ltb_spec 65544 (Slice.len c)); [| lia].
      now rewrite orb_true_r. }
    rewrite E. split; [split; [lia | intros _; eexists; reflexivity] |].
    intros n Hn. congruence.
  - destruct (ParseCapdu_in_range_cases c) as [E | [[lc E] | [r E]]];
      [lia | | |]; rewrite E;
      (split; [split; [intros [n Hn]; discriminate | lia]
              | intros n Hn; discriminate]).
Qed.

(** The six bytes of C2 panic, and the characterisation says why. *)
Lemma ParseCapdu_panic_iff_witness :
  let c := Slice.of_list [0x00; 0xA4; 0x04; 0x00; 0x00; 0x01] in
  slice_wf c
  /\ (ParseCapdu c = Panic
      <-> Slice.len c = 6 /\ at_ c 4 = 0 /\ Slice.cap c < 7).
Proof.
  cbv zeta.
  assert (Hwf : slice_wf (Slice.of_list [0x00; 0xA4; 0x04; 0x00; 0x00; 0x01]))
    by (unfold slice_wf, is_byte; cbn [Slice.of_list Slice.elems Slice.spare app];
        repeat constructor; lia).
  split; [exact Hwf |].
  apply (ParseCapdu_panic_iff _ Hwf).
Defined.

(** X3.  The Lc check of the extended format.  For a well-formed input of
    eight bytes or more with a zero at position 4, Lc is the big-endian
    value of bytes 5 and 6; the parser fails with InvalidLc exactly when
    Lc is neither bodyLen-3 nor bodyLen-5; otherwise Data is the Lc bytes
    from offset 7, with Ne = 0 in the first case and Ne decoded from the
    last two bytes (zero meaning 65536) in the second. *)
Theorem ParseCapdu_extended_Lc (c : Slice.t) :
  slice_wf c ->
  8 <= Slice.len c <= 65544 ->
  at_ c 4 = 0 ->
  let lc := u16 (at_ c 5) (at_ c 6) in
  let bodyLen := Slice.len c - 4 in
  ((exists v, ParseCapdu c = Err (InvalidLc v))
   <-> lc <> bodyLen - 3 /\ lc <> bodyLen - 5)
  /\ (lc <> bodyLen - 3 /\ lc <> bodyLen - 5 ->
      ParseCapdu c = Err (InvalidLc lc))
  /\ (lc = bodyLen - 3 -> ParseCapdu c = Ok (hdr c (body c 7 lc) 0))
  /\ (lc = bodyLen - 5 ->
      ParseCapdu c
      = Ok (hdr c (body c 7 lc)
              (ne_ext (u16 (at_ c (Slice.len c - 2)) (at_ c (Slice.len c - 1)))))).
Proof.
  intros Hwf Hlen Hz lc bodyLen.
  assert (Hlc : 0 <= lc < 65536)
    by (apply u16_bytes_range; apply at_is_byte; (assumption || lia)).
  subst bodyLen.
  rewrite ParseCapdu_eq, !Z.gtb_ltb.
  destruct (Z.ltb_spec (Slice.len c) 4); [lia |].
  destruct (Z.ltb_spec 65544 (Slice.len c)); [lia |].
  destruct (Z.eqb_spec (Slice.len c) 4); [lia |].
  destruct (Z.eqb_spec (at_ c 4) 0); [| contradiction].
  destruct (Z.ltb_spec 5 (Slice.len c)); [| lia]. cbn [orb andb].
  rewrite parseCapduExtendedLength_eq by lia.
  destruct (Z.eqb_spec (Slice.len c) 7); [lia |]. cbv zeta. fold lc.
  destruct (Z.eqb_spec lc (Slice.len c - 7)) as [Ha | Ha].
  - split; [split; [intros [v Hv]; discriminate | intros [? ?]; lia] |].
    split; [intros [? ?]; lia |]. split; [reflexivity | intros ?; lia].
  - destruct (Z.eqb_spec lc (Slice.len c - 9)) as [Hb | Hb].
    + destruct (Z.ltb_spec lc 0); [lia |].
      split; [split; [intros [v Hv]; discriminate | intros [? ?]; lia] |].
      split; [intros [? ?]; lia |]. split; [intros ?; lia | reflexivity].
    + split; [split; [intros _; lia | intros _; eexists; reflexivity] |].
      split; [reflexivity |]. split; intros ?; lia.
Qed.

(** The Lc check on an extended case 4 command. *)
Lemma ParseCapdu_extended_Lc_witness :
  let c := Slice.of_list
             [0x00; 0xA4; 0x04; 0x01; 0x00; 0x00; 0x03; 0x01; 0x02; 0x03; 0x01; 0x01] in
  slice_wf c /\ 8 <= Slice.len c <= 65544 /\ at_ c 4 = 0
  /\ (u16 (at_ c 5) (at_ c 6) = Slice.len c - 4 - 5 ->
      ParseCapdu c
      = Ok (hdr c (body c 7 (u16 (at_ c 5) (at_ c 6)))
              (ne_ext (u16 (at_ c (Slice.len c - 2)) (at_ c (Slice.len c - 1)))))).
Proof.
  cbv zeta.
  assert (Hwf : slice_wf (Slice.of_list
             [0x00; 0xA4; 0x04; 0x01; 0x00; 0x00; 0x03; 0x01; 0x02; 0x03; 0x01; 0x01]))
    by (unfold slice_wf, is_byte; cbn [Slice.of_list Slice.elems Slice.spare app];
        repeat constructor; lia).
  split; [exact Hwf |]. split; [by_eval |]. split; [by_eval |].
  apply (ParseCapdu_extended_Lc _ Hwf); by_eval.
Defined.

(** ** What a successful parse returns *)

Lemma Forall_firstn_skipn {A : Type} (P : A -> Prop) (n m : nat) (l : list A) :
  Forall P l -> Forall P (firstn n (skipn m l)).
Proof.
  intros H.
  rewrite <- (firstn_skipn m l) in H. apply Forall_app in H. destruct H as [_ H].
  rewrite <- (firstn_skipn n (skipn m l)) in H. apply Forall_app in H.
  apply H.
Qed.

Lemma body_llen (c : Slice.t) (off lc : Z) :
  0 <= off -> 0 <= lc -> off + lc <= Slice.len c -> llen (body c off lc) = lc.
Proof.
  intros Ho Hl Hb. unfold llen, body, Slice.len in *.
  rewrite length_firstn, length_skipn. lia.
Qed.

Lemma body_bytes (c : Slice.t) (off lc : Z) :
  slice_wf c -> Forall is_byte (body c off lc).
Proof.
  intros Hwf. unfold body. apply Forall_firstn_skipn.
  unfold slice_wf in Hwf. apply Forall_app in Hwf. apply Hwf.
Qed.

Lemma ne_std_range (b : byte) : is_byte b -> 1 <= ne_std b <= 256.
Proof.
  unfold is_byte, ne_std. intros H. destruct (Z.eqb_spec b 0); lia.
Qed.

Lemma ne_ext_range (v : Z) : 0 <= v < 65536 -> 1 <= ne_ext v <= 65536.
Proof.
  unfold ne_ext. intros H. destruct (Z.eqb_spec v 0); lia.
Qed.

Lemma ParseCapdu_ok_shape (c : Slice.t) (r : Capdu.t) :
  slice_wf c -> ParseCapdu c = Ok r ->
  exists data ne,
    r = hdr c data ne /\ Forall is_byte data
    /\ accepted_shape (Slice.len c) (llen data) ne.
Proof.
  intros Hwf. rewrite ParseCapdu_eq, !Z.gtb_ltb.
  destruct (Z.ltb_spec (Slice.len c) 4); [discriminate |].
  destruct (Z.ltb_spec 65544 (Slice.len c)); [discriminate |]. cbn [orb].
  destruct (Z.eqb_spec (Slice.len c) 4) as [E4 | E4].
  - intros [= <-]. exists [], 0. split; [reflexivity |]. split; [constructor |].
    left. now rewrite llen_nil.
  - destruct (Z.eqb_spec (at_ c 4) 0) as [Hz | Hz];
      destruct (Z.ltb_spec 5 (Slice.len c)) as [H5 | H5]; cbn [andb].
    + (* extended *)
      destruct (Z.eq_dec (Slice.len c) 6) as [E6 | E6].
      { destruct (parseCapduExtendedLength_len6_cases c E6) as [-> | [lc ->]];
          discriminate. }
      rewrite parseCapduExtendedLength_eq by lia.
      assert (Hlc : 0 <= u16 (at_ c 5) (at_ c 6) < 65536)
        by (apply u16_bytes_range; apply at_is_byte; (assumption || lia)).
      destruct (Z.eqb_spec (Slice.len c) 7) as [E7 | E7].
      { intros [= <-]. exists [], (ne_ext (u16 (at_ c 5) (at_ c 6))).
        split; [reflexivity |]. split; [constructor |].
        right; right; left. rewrite llen_nil.
        pose proof (ne_ext_range _ Hlc). lia. }
      cbv zeta. set (lc := u16 (at_ c 5) (at_ c 6)) in *.
      destruct (Z.eqb_spec lc (Slice.len c - 7)) as [Ha | Ha].
      { intros [= <-]. exists (body c 7 lc), 0.
        split; [reflexivity |]. split; [now apply body_bytes |].
        rewrite body_llen by lia. do 5 right. left. lia. }
      destruct (Z.eqb_spec lc (Slice.len c - 9)) as [Hb | Hb]; [| discriminate].
      destruct (Z.ltb_spec lc 0); [discriminate |].
      intros [= <-]. eexists (body c 7 lc), _.
      split; [reflexivity |]. split; [now apply body_bytes |].
      rewrite body_llen by lia. do 6 right.
      assert (Hle : 0 <= u16 (at_ c (Slice.len c - 2)) (at_ c (Slice.len c - 1)) < 65536)
        by (apply u16_bytes_range; apply at_is_byte; (assumption || lia)).
      pose proof (ne_ext_range _ Hle). lia.
    + (* a lone zero: standard case 2 *)
      rewrite parseCapduStandardLength_eq by lia.
      destruct (Z.eqb_spec (Slice.len c) 5); [| lia].
      intros [= <-]. eexists [], _. split; [reflexivity |].
      split; [constructor |]. right; left. rewrite llen_nil.
      pose proof (ne_std_range (at_ c 4)) as Hr.
      rewrite Hz in *. unfold is_byte in Hr. lia.
    + (* standard, more than five bytes *)
      rewrite parseCapduStandardLength_eq by lia.
      assert (H4b : is_byte (at_ c 4)) by (apply at_is_byte; (assumption || lia)).
      unfold is_byte in H4b.
      destruct (Z.eqb_spec (Slice.len c) 5); [lia |]. cbv zeta.
      destruct (Z.eqb_spec (at_ c 4) (Slice.len c - 5)) as [Ha | Ha].
      { intros [= <-]. eexists (body c 5 (at_ c 4)), 0.
        split; [reflexivity |]. split; [now apply body_bytes |].
        rewrite body_llen by lia. do 3 right. left. lia. }
      destruct (Z.eqb_spec (at_ c 4) (Slice.len c - 6)) as [Hb | Hb];
        [| discriminate].
      intros [= <-]. eexists (body c 5 (at_ c 4)), _.
      split; [reflexivity |]. split; [now apply body_bytes |].
      rewrite body_llen by lia. do 4 right. left.
      assert (Hle : is_byte (at_ c (Slice.len c - 1)))
        by (apply at_is_byte; (assumption || lia)).
      pose proof (ne_std_range _ Hle). lia.
    + (* standard case 2 *)
      rewrite parseCapduStandardLength_eq by lia.
      destruct (Z.eqb_spec (Slice.len c) 5); [| lia].
      assert (H4b : is_byte (at_ c 4)) by (apply at_is_byte; (assumption || lia)).
      intros [= <-]. eexists [], _. split; [reflexivity |].
      split; [constructor |]. right; left. rewrite llen_nil.
      pose proof (ne_std_range _ H4b). lia.
Qed.

(** X4.  Whatever [ParseCapdu] returns for a well-formed input satisfies
    the invariant of the data model: Ne between 0 and 65536, at most
    65535 bytes of data, every field a byte; and the data is shorter than
    the input by at least the header. *)
Theorem ParseCapdu_result_valid (c : Slice.t) (r : Capdu.t) :
  slice_wf c -> ParseCapdu c = Ok r ->
  capdu_valid r /\ capdu_wf r /\ 4 + Capdu.dlen r <= Slice.len c.
Proof.
  intros Hwf Hp.
  destruct (ParseCapdu_ok_shape c r Hwf Hp) as [data [ne [-> [Hd Hs]]]].
  assert (H4 : 4 <= Slice.len c) by (unfold accepted_shape in Hs; lia).
  unfold capdu_valid, capdu_wf, hdr, Capdu.dlen.
  cbn [Capdu.Cla Capdu.Ins Capdu.P1 Capdu.P2 Capdu.Data Capdu.Ne].
  fold (llen data).
  split; [unfold accepted_shape in Hs; lia |].
  split; [| unfold accepted_shape in Hs; lia].
  repeat split; try (apply at_is_byte; (assumption || lia)); try exact Hd;
    apply at_is_byte; (assumption || lia).
Qed.

(** ** The size of an encoding *)

Ltac decide_cmp :=
  match goal with
  | |- context [?a =? ?b] =>
      destruct (Z.eqb_spec a b); [try (exfalso; lia) | try (exfalso; lia)]
  | |- context [?a <? ?b] =>
      destruct (Z.ltb_spec a b); [try (exfalso; lia) | try (exfalso; lia)]
  | |- context [?a <=? ?b] =>
      destruct (Z.leb_spec a b); [try (exfalso; lia) | try (exfalso; lia)]
  end.

Lemma llen_firstn_wire (c : Capdu.t) :
  llen (firstn (Z.to_nat (wire_dlen c)) (Capdu.Data c)) = wire_dlen c.
Proof.
  unfold llen, wire_dlen, Capdu.dlen. rewrite length_firstn. lia.
Qed.

Lemma wire_dlen_small (c : Capdu.t) :
  Capdu.dlen c <= 65535 -> wire_dlen c = Capdu.dlen c.
Proof. unfold wire_dlen. lia. Qed.

Lemma Bytes_wire_len (c : Capdu.t) :
  exists bs, Capdu.Bytes c = Ok bs /\ llen bs = wire_len c.
Proof.
  pose proof (dlen_nonneg c) as Hd0.
  assert (Hdl : llen (Capdu.Data c) = Capdu.dlen c) by reflexivity.
  assert (Hw : wire_dlen c = Z.min (Capdu.dlen c) 65535) by reflexivity.
  unfold wire_len, Capdu.IsExtendedLength. consts. rewrite !Z.gtb_ltb.
  destruct (Z.eq_dec (Capdu.Ne c) 0) as [Hn | Hn];
    destruct (Z.eq_dec (Capdu.dlen c) 0) as [Hd | Hd];
    destruct (Z_le_gt_dec (Capdu.dlen c) 255) as [Hds | Hdx];
    destruct (Z_le_gt_dec (Capdu.Ne c) 256) as [Hs | Hx];
    destruct (Z_le_gt_dec (Capdu.Ne c) 0) as [Hneg | Hpos];
    try lia; eexists;
    (split;
     [ first [ apply Bytes_case1; lia
             | apply Bytes_case2_std; lia
             | apply Bytes_case2_ext; lia
             | apply Bytes_case3_std; lia
             | apply Bytes_case3_ext; lia
             | apply Bytes_case4_std; lia
             | apply Bytes_case4_ext; lia ]
     | unfold header; rewrite ?ext3_bytes;
       rewrite ?llen_app, ?llen_firstn_wire, ?Hdl, ?llen_app;
       rewrite ?llen_cons, ?llen_nil, ?Hdl;
       repeat decide_cmp; cbn [andb orb]; repeat decide_cmp; lia ]).
Qed.

Lemma wire_len_bounds (c : Capdu.t) : 4 <= wire_len c <= 65544.
Proof.
  pose proof (dlen_nonneg c) as Hd0.
  assert (Hw : 0 <= wire_dlen c <= 65535) by (unfold wire_dlen; lia).
  unfold wire_len.
  destruct ((Capdu.dlen c =? 0) && (0 <=? Capdu.Ne c));
    [destruct (Capdu.Ne c =? 0); [lia | destruct (Capdu.Ne c <=? 256); lia] |].
  destruct (Capdu.IsExtendedLength c); destruct (Capdu.Ne c =? 0); lia.
Qed.

(** X5.  The size of an encoding.  For every Capdu, [Capdu.Bytes] writes
    exactly [wire_len] bytes: the header, one or three bytes of Lc when
    there is data, the data cut to 65535 bytes, and one or two bytes of
    Le when Ne is not zero.  The result has between 4 and 65544 bytes,
    the lengths [ParseCapdu] accepts. *)
Theorem Bytes_length (c : Capdu.t) :
  exists bs, Capdu.Bytes c = Ok bs
             /\ llen bs = wire_len c
             /\ 4 <= llen bs <= 65544.
Proof.
  destruct (Bytes_wire_len c) as [bs [Hb Hl]].
  exists bs. split; [exact Hb |]. split; [exact Hl |].
  rewrite Hl. apply wire_len_bounds.
Qed.

(** X6.  Re-encoding normalises.  When [ParseCapdu] accepts a well-formed
    input, [Capdu.Bytes] of the result is an encoding that parses to the
    same result and is never longer than the input (an extended-length
    input whose fields fit the standard format comes back shorter). *)
Theorem ParseCapdu_reencode (c : Slice.t) (r : Capdu.t) (sp : list byte) :
  slice_wf c -> ParseCapdu c = Ok r ->
  exists bs, Capdu.Bytes r = Ok bs
             /\ ParseCapdu (Slice.mk bs sp) = Ok r
             /\ llen bs <= Slice.len c.
Proof.
  intros Hwf Hp.
  destruct (ParseCapdu_ok_shape c r Hwf Hp) as [data [ne [Hr [Hd Hs]]]].
  assert (Hdl : Capdu.dlen r = llen data) by (rewrite Hr; reflexivity).
  assert (Hne : Capdu.Ne r = ne) by (rewrite Hr; reflexivity).
  pose proof (llen_nil) as Hnil.
  assert (H0 : 0 <= llen data) by (unfold llen; lia).
  destruct (parse_Bytes_valid r sp) as [bs [Hb Hq]];
    [unfold accepted_shape in Hs; lia | unfold accepted_shape in Hs; lia |].
  exists bs. split; [exact Hb |]. split; [exact Hq |].
  destruct (Bytes_wire_len r) as [bs' [Hb' Hl]].
  assert (bs' = bs) as -> by congruence.
  rewrite Hl. unfold wire_len, Capdu.IsExtendedLength, wire_dlen. consts.
  rewrite !Z.gtb_ltb, Hdl, Hne.
  unfold accepted_shape in Hs.
  repeat decide_cmp; cbn [andb orb]; repeat decide_cmp; lia.
Qed.

(** An extended case 3 command with three bytes of data: ten bytes in,
    eight bytes out. *)
Lemma ParseCapdu_reencode_witness :
  let c := Slice.of_list [0x00; 0xA4; 0x04; 0x01; 0x00; 0x00; 0x03; 0x01; 0x02; 0x03] in
  let r := Capdu.mk 0x00 0xA4 0x04 0x01 [0x01; 0x02; 0x03] 0 in
  slice_wf c /\ ParseCapdu c = Ok r
  /\ exists bs, Capdu.Bytes r = Ok bs
                /\ ParseCapdu (Slice.mk bs []) = Ok r
                /\ llen bs <= Slice.len c.
Proof.
  cbv zeta.
  assert (Hwf : slice_wf (Slice.of_list
             [0x00; 0xA4; 0x04; 0x01; 0x00; 0x00; 0x03; 0x01; 0x02; 0x03]))
    by (unfold slice_wf, is_byte; cbn [Slice.of_list Slice.elems Slice.spare app];
        repeat constructor; lia).
  split; [exact Hwf |]. split; [reflexivity |].
  apply (ParseCapdu_reencode _ _ [] Hwf). reflexivity.
Defined.

(** Scenario B of the test suite satisfies the invariant. *)
Lemma ParseCapdu_result_valid_witness :
  let c := Slice.of_list
             [0x00; 0xA4; 0x04; 0x00; 0x05; 0x01; 0x02; 0x03; 0x04; 0x05; 0x20] in
  let r := Capdu.mk 0x00 0xA4 0x04 0x00 [0x01; 0x02; 0x03; 0x04; 0x05] 32 in
  slice_wf c /\ ParseCapdu c = Ok r
  /\ capdu_valid r /\ capdu_wf r /\ 4 + Capdu.dlen r <= Slice.len c.
Proof.
  cbv zeta.
  assert (Hwf : slice_wf (Slice.of_list
             [0x00; 0xA4; 0x04; 0x00; 0x05; 0x01; 0x02; 0x03; 0x04; 0x05; 0x20]))
    by (unfold slice_wf, is_byte; cbn [Slice.of_list Slice.elems Slice.spare app];
        repeat constructor; lia).
  split; [exact Hwf |]. split; [reflexivity |].
  apply (ParseCapdu_result_valid _ _ Hwf). reflexivity.
Defined.

(** ** The bytes of an encoding *)

Lemma is_byte_byte_of_int (x : Z) : is_byte (byte_of_int x).
Proof. rewrite byte_of_int_mod. unfold is_byte. apply Z.mod_pos_bound. lia. Qed.

Lemma is_byte_hi8 (n : Z) : is_byte (hi8 n).
Proof. apply is_byte_byte_of_int. Qed.

Lemma is_byte_lo8 (n : Z) : is_byte (lo8 n).
Proof. apply is_byte_byte_of_int. Qed.

Lemma is_byte_0 : is_byte 0.
Proof. unfold is_byte. lia. Qed.

Lemma Forall_firstn {A : Type} (P : A -> Prop) (n : nat) (l : list A) :
  Forall P l -> Forall P (firstn n l).
Proof. intros H. apply (Forall_firstn_skipn P n 0 l H). Qed.

Lemma Bytes_bytes (c : Capdu.t) :
  capdu_wf c -> exists bs, Capdu.Bytes c = Ok bs /\ Forall is_byte bs.
Proof.
  intros (Hcla & Hins & Hp1 & Hp2 & Hdata).
  pose proof (dlen_nonneg c) as Hd0.
  assert (Hh : Forall is_byte (header c)) by (unfold header; repeat (apply Forall_cons; [assumption |]); apply Forall_nil).
  destruct (Z.eq_dec (Capdu.Ne c) 0) as [Hn | Hn];
    destruct (Z.eq_dec (Capdu.dlen c) 0) as [Hd | Hd];
    destruct (Z_le_gt_dec (Capdu.dlen c) 255) as [Hds | Hdx];
    destruct (Z_le_gt_dec (Capdu.Ne c) 256) as [Hs | Hx];
    destruct (Z_le_gt_dec (Capdu.Ne c) 0) as [Hneg | Hpos];
    try lia; eexists;
    (split;
     [ first [ apply Bytes_case1; lia
             | apply Bytes_case2_std; lia
             | apply Bytes_case2_ext; lia
             | apply Bytes_case3_std; lia
             | apply Bytes_case3_ext; lia
             | apply Bytes_case4_std; lia
             | apply Bytes_case4_ext; lia ]
     | rewrite ?ext3_bytes;
       repeat (apply Forall_app; split);
       repeat (apply Forall_cons);
       first [ assumption | apply Forall_firstn; exact Hdata
             | apply Forall_nil | apply is_byte_byte_of_int
             | apply is_byte_hi8 | apply is_byte_lo8 | apply is_byte_0 ] ]).
Qed.

(** X7.  [Capdu.Bytes] writes bytes: when the header fields and the data
    of a Capdu are bytes, every element of the encoding is a byte,
    whatever Ne and the length of the data are (the length fields are
    reduced to eight bits each). *)
Theorem Bytes_are_bytes (c : Capdu.t) :
  capdu_wf c -> exists bs, Capdu.Bytes c = Ok bs /\ Forall is_byte bs.
Proof. apply Bytes_bytes. Qed.

(** A standard case 4 command. *)
Lemma Bytes_are_bytes_witness :
  let c := Capdu.mk 0x00 0xA4 0x04 0x00 [0x01; 0x02; 0x03] 256 in
  capdu_wf c /\ exists bs, Capdu.Bytes c = Ok bs /\ Forall is_byte bs.
Proof.
  cbv zeta.
  assert (Hwf : capdu_wf (Capdu.mk 0x00 0xA4 0x04 0x00 [0x01; 0x02; 0x03] 256))
    by (unfold capdu_wf, is_byte; cbn; repeat split; try lia; repeat constructor; lia).
  split; [exact Hwf |]. apply (Bytes_are_bytes _ Hwf).
Defined.

(** ** The queries [IsExtendedLength] and [Lc] against the encoding *)

Lemma at4_cons (a b c d x : byte) (l sp : list byte) :
  at_ (Slice.mk (a :: b :: c :: d :: x :: l) sp) 4 = x.
Proof. reflexivity. Qed.

(** X8.  [IsExtendedLength] tells the format [Capdu.Bytes] uses: for a
    Capdu with Ne >= 0, it is true exactly when the encoding carries the
    extended-length marker, a zero byte at position 4 followed by at
    least one more byte, which is what sends [ParseCapdu] to the extended
    parser. *)
Theorem IsExtendedLength_marks_encoding (c : Capdu.t) (sp : list byte) :
  0 <= Capdu.Ne c ->
  exists bs, Capdu.Bytes c = Ok bs
             /\ (Capdu.IsExtendedLength c = true
                 <-> at_ (Slice.mk bs sp) 4 = 0 /\ 5 < llen bs).
Proof.
  intros Hne0.
  pose proof (dlen_nonneg c) as Hd0.
  assert (Hdl : llen (Capdu.Data c) = Capdu.dlen c) by reflexivity.
  unfold Capdu.IsExtendedLength. consts. rewrite !Z.gtb_ltb.
  destruct (Z.eq_dec (Capdu.Ne c) 0) as [Hn | Hn];
    destruct (Z.eq_dec (Capdu.dlen c) 0) as [Hd | Hd];
    destruct (Z_le_gt_dec (Capdu.dlen c) 255) as [Hds | Hdx];
    destruct (Z_le_gt_dec (Capdu.Ne c) 256) as [Hs | Hx];
    try lia; eexists;
    (split;
     [ first [ apply Bytes_case1; lia
             | apply Bytes_case2_std; lia
             | apply Bytes_case2_ext; lia
             | apply Bytes_case3_std; lia
             | apply Bytes_case3_ext; lia
             | apply Bytes_case4_std; lia
             | apply Bytes_case4_ext; lia ]
     | unfold header; rewrite ?ext3_bytes; cbn [app];
       rewrite ?at4_cons, ?llen_cons, ?llen_app, ?llen_cons, ?llen_nil,
         ?llen_firstn_wire, ?Hdl;
       rewrite ?byte_of_int_small by lia;
       assert (Hw : 0 <= wire_dlen c) by (unfold wire_dlen; lia);
       destruct (Z.ltb_spec 256 (Capdu.Ne c));
       destruct (Z.ltb_spec 255 (Capdu.dlen c)); cbn [orb];
       split; try lia; try discriminate; try (intros _; split; (reflexivity || lia));
       try reflexivity ]).
Qed.

(** A case 4 command whose Ne alone forces the extended format. *)
Lemma IsExtendedLength_marks_encoding_witness :
  let c := Capdu.mk 0x00 0xA4 0x04 0x00 [0x01; 0x02; 0x03] 257 in
  0 <= Capdu.Ne c
  /\ exists bs, Capdu.Bytes c = Ok bs
                /\ (Capdu.IsExtendedLength c = true
                    <-> at_ (Slice.mk bs []) 4 = 0 /\ 5 < llen bs).
Proof.
  cbv zeta. split; [by_eval |].
  apply IsExtendedLength_marks_encoding. by_eval.
Defined.

Lemma dlen_0_nil (c : Capdu.t) : Capdu.dlen c = 0 -> Capdu.Data c = [].
Proof.
  unfold Capdu.dlen. destruct (Capdu.Data c); [reflexivity | discriminate].
Qed.

Lemma firstn_wire_dlen_small (c : Capdu.t) :
  Capdu.dlen c <= 65535 ->
  firstn (Z.to_nat (wire_dlen c)) (Capdu.Data c) = Capdu.Data c.
Proof.
  intros H. rewrite wire_dlen_small by exact H. apply firstn_llen.
Qed.

(** X9.  [Capdu.Lc] returns the Lc field of the encoding whenever Ne does
    not force the extended format: for 0 <= Ne <= 256 and at most 65535
    bytes of data, [Capdu.Bytes] is the header, then [Capdu.Lc], then the
    data, then at most two bytes of Le. *)
Theorem Lc_in_encoding (c : Capdu.t) :
  0 <= Capdu.Ne c <= 256 ->
  Capdu.dlen c <= 65535 ->
  exists le, Capdu.Bytes c = Ok (header c ++ Capdu.Lc c ++ Capdu.Data c ++ le)
             /\ llen le <= 2.
Proof.
  intros Hne Hdl.
  pose proof (dlen_nonneg c) as Hd0.
  unfold Capdu.Lc. consts. rewrite Z.gtb_ltb.
  destruct (Z.eqb_spec (Capdu.dlen c) 0) as [Hd | Hd].
  - rewrite (dlen_0_nil c Hd). cbn [app].
    destruct (Z.eq_dec (Capdu.Ne c) 0) as [Hn | Hn].
    + exists []. rewrite Bytes_case1 by assumption.
      now rewrite app_nil_r.
    + exists [byte_of_int (Capdu.Ne c)].
      rewrite Bytes_case2_std by lia. split; [reflexivity | by_eval].
  - destruct (Z.ltb_spec 255 (Capdu.dlen c)) as [Hx | Hs];
      destruct (Z.eq_dec (Capdu.Ne c) 0) as [Hn | Hn].
    + exists []. rewrite Bytes_case3_ext by lia.
      rewrite firstn_wire_dlen_small, wire_dlen_small, app_nil_r by lia.
      split; [reflexivity | by_eval].
    + exists [hi8 (wire_ne c); lo8 (wire_ne c)].
      rewrite Bytes_case4_ext by lia.
      rewrite firstn_wire_dlen_small, wire_dlen_small by lia.
      split; [reflexivity |]. rewrite !llen_cons, llen_nil. lia.
    + exists []. rewrite Bytes_case3_std by lia. rewrite app_nil_r.
      split; [reflexivity | by_eval].
    + exists [byte_of_int (Capdu.Ne c)].
      rewrite Bytes_case4_std by lia.
      split; [reflexivity |]. rewrite !llen_cons, llen_nil. lia.
Qed.

(** A standard case 4 command. *)
Lemma Lc_in_encoding_witness :
  let c := Capdu.mk 0x00 0xA4 0x04 0x00 [0x01; 0x02; 0x03] 32 in
  0 <= Capdu.Ne c <= 256 /\ Capdu.dlen c <= 65535
  /\ exists le, Capdu.Bytes c = Ok (header c ++ Capdu.Lc c ++ Capdu.Data c ++ le)
                /\ llen le <= 2.
Proof.
  cbv zeta. split; [by_eval |]. split; [by_eval |].
  apply Lc_in_encoding; by_eval.
Defined.

(** X10.  [Capdu.Lc] looks at the data alone.  When Ne exceeds 256 and
    there are 1 to 255 bytes of data, [Capdu.Bytes] writes the three-byte
    Lc [00 00 len] of the extended format, while [Capdu.Lc] returns the
    single byte [len]. *)
Theorem Lc_ignores_Ne (c : Capdu.t) :
  256 < Capdu.Ne c ->
  1 <= Capdu.dlen c <= 255 ->
  Capdu.Lc c = [Capdu.dlen c]
  /\ Capdu.Bytes c
     = Ok (header c ++ [0; 0; Capdu.dlen c] ++ Capdu.Data c
                    ++ [hi8 (wire_ne c); lo8 (wire_ne c)]).
Proof.
  intros Hne Hdl. split.
  - unfold Capdu.Lc. consts. rewrite Z.gtb_ltb.
    destruct (Z.eqb_spec (Capdu.dlen c) 0); [lia |].
    destruct (Z.ltb_spec 255 (Capdu.dlen c)); [lia |].
    now rewrite byte_of_int_small by lia.
  - rewrite Bytes_case4_ext by lia.
    rewrite firstn_wire_dlen_small, wire_dlen_small, ext3_bytes by lia.
    rewrite hi8_div, lo8_mod.
    rewrite (Z.div_small (Capdu.dlen c) 256) by lia.
    rewrite (Z.mod_small (Capdu.dlen c) 256) by lia.
    reflexivity.
Qed.

(** Three bytes of data with Ne = 257. *)
Lemma Lc_ignores_Ne_witness :
  let c := Capdu.mk 0x00 0xA4 0x04 0x00 [0x01; 0x02; 0x03] 257 in
  256 < Capdu.Ne c /\ 1 <= Capdu.dlen c <= 255
  /\ Capdu.Lc c = [Capdu.dlen c]
  /\ Capdu.Bytes c
     = Ok (header c ++ [0; 0; Capdu.dlen c] ++ Capdu.Data c
                    ++ [hi8 (wire_ne c); lo8 (wire_ne c)]).
Proof.
  cbv zeta. split; [by_eval |]. split; [by_eval |].
  apply Lc_ignores_Ne; by_eval.
Defined.

(** X11.  A negative Ne with no data is taken for case 4: [Capdu.Bytes]
    writes the header, an Lc byte 00 and the low byte of Ne, six bytes in
    a slice of capacity six, and [ParseCapdu] panics on that slice. *)
Theorem negative_Ne_encoding_panics (cla ins p1 p2 : byte) (ne : Z) :
  ne < 0 ->
  Capdu.Bytes (Capdu.mk cla ins p1 p2 [] ne)
  = Ok [cla; ins; p1; p2; 0; byte_of_int ne]
  /\ ParseCapdu (Slice.of_list [cla; ins; p1; p2; 0; byte_of_int ne]) = Panic.
Proof.
  intros Hne. split.
  - rewrite Bytes_case4_std by (cbn; lia). reflexivity.
  - reflexivity.
Qed.

(** Ne = -1. *)
Lemma negative_Ne_encoding_panics_witness :
  -1 < 0
  /\ Capdu.Bytes (Capdu.mk 0x00 0xB0 0x00 0x00 [] (-1))
     = Ok [0x00; 0xB0; 0x00; 0x00; 0; byte_of_int (-1)]
  /\ ParseCapdu (Slice.of_list [0x00; 0xB0; 0x00; 0x00; 0; byte_of_int (-1)])
     = Panic.
Proof.
  split; [lia |]. apply negative_Ne_encoding_panics. lia.
Defined.

(** * Further properties of Response APDUs *)

(** The parser on data followed by a status word. *)
Lemma ParseRapdu_layout (d : list byte) (sw1 sw2 : byte) (sp : list byte) :
  llen d <= 65536 ->
  ParseRapdu (Slice.mk (d ++ [sw1; sw2]) sp) = Ok (Rapdu.mk d sw1 sw2).
Proof.
  intros Hd. assert (H0 : 0 <= llen d) by (unfold llen; lia).
  rewrite ParseRapdu_eq, Z.gtb_ltb.
  rewrite len_slice, llen_app, !llen_cons, llen_nil.
  destruct (Z.ltb_spec (llen d + (1 + (1 + 0))) 2); [lia |].
  destruct (Z.ltb_spec 65538 (llen d + (1 + (1 + 0)))); [lia |]. cbn [orb].
  destruct (Z.eqb_spec (llen d + (1 + (1 + 0))) 2) as [E | E].
  - assert (d = []) as ->
        by (destruct d; [reflexivity | rewrite llen_cons in E; unfold llen in E; lia]).
    reflexivity.
  - rewrite at_last2 by lia. rewrite at_last2_snd by lia.
    cbn [Slice.elems].
    replace (llen d + (1 + (1 + 0)) - 2) with (llen d) by lia.
    now rewrite firstn_llen_app.
Qed.

(** X12.  Round trip of a Rapdu.  [Rapdu.Bytes] always returns an
    encoding, and [ParseRapdu] on it returns the Rapdu with its data cut
    to the first 65536 bytes: the Rapdu itself when it has at most 65536
    bytes of data. *)
Theorem ParseRapdu_Bytes_roundtrip (r : Rapdu.t) (sp : list byte) :
  exists bs,
    Rapdu.Bytes r = Ok bs
    /\ ParseRapdu (Slice.mk bs sp)
       = Ok (Rapdu.mk (firstn (Z.to_nat 65536) (Rapdu.Data r))
                      (Rapdu.SW1 r) (Rapdu.SW2 r))
    /\ (Rapdu.dlen r <= 65536 -> ParseRapdu (Slice.mk bs sp) = Ok r).
Proof.
  eexists. split; [apply Rapdu_Bytes_eq |].
  set (d := firstn (Z.to_nat 65536) (Rapdu.Data r)).
  assert (Hd : llen d <= 65536)
    by (unfold llen, d; rewrite length_firstn; lia).
  split; [now apply ParseRapdu_layout |].
  intros Hsmall. rewrite ParseRapdu_layout by exact Hd.
  destruct r as [data sw1 sw2].
  unfold d. cbn [Rapdu.Data Rapdu.SW1 Rapdu.SW2].
  unfold Rapdu.dlen in Hsmall. cbn [Rapdu.Data] in Hsmall.
  rewrite firstn_all2 by lia. reflexivity.
Qed.

Lemma split_last_two (l : list byte) (n : Z) :
  llen l = n -> 2 <= n ->
  firstn (Z.to_nat (n - 2)) l
    ++ [nth (Z.to_nat (n - 2)) l 0; nth (Z.to_nat (n - 1)) l 0] = l.
Proof.
  intros Hl Hn. unfold llen in Hl.
  rewrite <- (firstn_skipn (Z.to_nat (n - 2)) l) at 4. f_equal.
  remember (skipn (Z.to_nat (n - 2)) l) as t eqn:Ht.
  assert (Hlen : length t = 2%nat) by (subst t; rewrite length_skipn; lia).
  assert (H0 : nth (Z.to_nat (n - 2)) l 0 = nth 0 t 0)
    by (subst t; rewrite nth_skipn; f_equal; lia).
  assert (H1 : nth (Z.to_nat (n - 1)) l 0 = nth 1 t 0)
    by (subst t; rewrite nth_skipn; f_equal; lia).
  rewrite H0, H1.
  destruct t as [| a [| b [| x t']]]; try discriminate. reflexivity.
Qed.

(** X13.  Every response that [ParseRapdu] accepts is the encoding of
    what it returns: [Rapdu.Bytes] of the result gives the input bytes
    back. *)
Theorem Rapdu_Bytes_ParseRapdu (b : Slice.t) (r : Rapdu.t) :
  ParseRapdu b = Ok r -> Rapdu.Bytes r = Ok (Slice.elems b).
Proof.
  rewrite ParseRapdu_eq, Z.gtb_ltb.
  destruct (Z.ltb_spec (Slice.len b) 2); [discriminate |].
  destruct (Z.ltb_spec 65538 (Slice.len b)); [discriminate |]. cbn [orb].
  assert (Hsplit := split_last_two (Slice.elems b) (Slice.len b) eq_refl).
  destruct (Z.eqb_spec (Slice.len b) 2) as [E | E]; intros [= <-];
    rewrite Rapdu_Bytes_eq; cbn [Rapdu.Data Rapdu.SW1 Rapdu.SW2]; f_equal.
  - rewrite firstn_nil. rewrite E in Hsplit. apply Hsplit. lia.
  - rewrite firstn_firstn.
    replace (Init.Nat.min (Z.to_nat 65536) (Z.to_nat (Slice.len b - 2)))
      with (Z.to_nat (Slice.len b - 2)) by lia.
    apply Hsplit. lia.
Qed.

(** Three bytes of data and the status word 9000. *)
Lemma Rapdu_Bytes_ParseRapdu_witness :
  let b := Slice.of_list [0x01; 0x02; 0x03; 0x90; 0x00] in
  let r := Rapdu.mk [0x01; 0x02; 0x03] 0x90 0x00 in
  ParseRapdu b = Ok r /\ Rapdu.Bytes r = Ok (Slice.elems b).
Proof.
  cbv zeta. split; [reflexivity |].
  apply Rapdu_Bytes_ParseRapdu. reflexivity.
Defined.

(** X14.  [ParseRapdu] never panics, whatever the length and the
    capacity of its input. *)
Theorem ParseRapdu_never_panics (b : Slice.t) : ParseRapdu b <> Panic.
Proof.
  rewrite ParseRapdu_eq.
  destruct ((Slice.len b <? 2) || (Slice.len b >? 65538)); [discriminate |].
  destruct (Slice.len b =? 2); discriminate.
Qed.

(** * The hexadecimal wrappers *)

(** ** Digits *)

(** A property of the sixteen digits is checked digit by digit. *)
Ltac each_nibble n H :=
  let m := fresh "m" in
  let Hm := fresh "Hm" in
  rewrite <- (Z2Nat.id n) by lia;
  remember (Z.to_nat n) as m eqn:Hm;
  assert ((m < 16)%nat) by lia; clear Hm H;
  do 16 (destruct m as [| m]; [reflexivity |]); lia.


Lemma fromHexChar_upper_hexchar (n : Z) :
  0 <= n < 16 -> fromHexChar (upper (hexchar n)) = Some n.
Proof. intros H. each_nibble n H. Qed.

Lemma high_nibble (v : byte) : is_byte v -> 0 <= Z.shiftr v 4 < 16.
Proof.
  unfold is_byte. intros H. rewrite Z.shiftr_div_pow2 by lia.
  change (2 ^ 4) with 16. split; [apply Z.div_pos; lia |].
  apply Z.div_lt_upper_bound; lia.
Qed.

Lemma low_nibble (v : byte) : 0 <= Z.land v 15 < 16.
Proof.
  change 15 with (Z.ones 4). rewrite Z.land_ones by lia.
  change (2 ^ 4) with 16. apply Z.mod_pos_bound. lia.
Qed.

Lemma join_nibbles (v : byte) :
  Z.lor (Z.shiftl (Z.shiftr v 4) 4) (Z.land v 15) = v.
Proof.
  change 15 with (Z.ones 4).
  rewrite <- Z.ldiff_ones_r by lia. apply Z.lor_ldiff_and.
Qed.

Lemma fromHexChar_range (ch : ascii) (a : Z) :
  fromHexChar ch = Some a -> 0 <= a < 16.
Proof.
  unfold fromHexChar. cbv zeta.
  destruct (Z.leb_spec 48 (code ch)); destruct (Z.leb_spec (code ch) 57);
    cbn [andb]; try (intros [= <-]; lia);
    destruct (Z.leb_spec 97 (code ch)); destruct (Z.leb_spec (code ch) 102);
    cbn [andb]; try (intros [= <-]; lia);
    destruct (Z.leb_spec 65 (code ch)); destruct (Z.leb_spec (code ch) 70);
    cbn [andb]; try (intros [= <-]; lia); discriminate.
Qed.

Lemma is_byte_nibbles (a b : Z) :
  0 <= a < 16 -> 0 <= b < 16 -> is_byte (Z.lor (Z.shiftl a 4) b).
Proof.
  intros Ha Hb. unfold is_byte.
  rewrite Z.shiftl_mul_pow2 by lia. change (2 ^ 4) with 16.
  assert (Hdisj : Z.land (a * 16) b = 0).
  { apply Z.bits_inj'. intros i Hi. rewrite Z.land_spec, Z.bits_0.
    destruct (Z.lt_ge_cases i 4) as [Hlt | Hge].
    - replace (a * 16) with (a * 2 ^ 4) by reflexivity.
      now rewrite Z.mul_pow2_bits_low by lia.
    - rewrite (Z.bits_above_log2 b i); [apply andb_false_r | lia |].
      destruct (Z.eq_dec b 0) as [-> | Hnz]; [simpl; lia |].
      apply Z.lt_le_trans with 4; [| exact Hge].
      apply Z.log2_lt_pow2; [lia |]. change (2 ^ 4) with 16. lia. }
  rewrite <- (Z.lxor_lor _ _ Hdisj), <- (Z.add_nocarry_lxor _ _ Hdisj). lia.
Qed.

(** ** Decoding *)

Lemma slen_String (ch : ascii) (s : string) : slen (String ch s) = 1 + slen s.
Proof. unfold slen. cbn [String.length]. lia. Qed.

Lemma slen_ToUpper (s : string) : slen (ToUpper s) = slen s.
Proof.
  induction s as [| ch s IH]; [reflexivity |].
  cbn [ToUpper]. now rewrite !slen_String, IH.
Qed.

Lemma slen_EncodeToString (bs : list byte) :
  slen (EncodeToString bs) = 2 * llen bs.
Proof.
  induction bs as [| v bs IH]; [reflexivity |].
  cbn [EncodeToString]. rewrite !slen_String, IH, llen_cons. lia.
Qed.


Lemma Decode_ToUpper_EncodeToString (bs : list byte) :
  Forall is_byte bs -> Decode (ToUpper (EncodeToString bs)) = (bs, None).
Proof.
  induction 1 as [| v bs Hv Hbs IH]; [reflexivity |].
  cbn [EncodeToString ToUpper Decode].
  rewrite (fromHexChar_upper_hexchar _ (high_nibble v Hv)).
  rewrite (fromHexChar_upper_hexchar _ (low_nibble v)).
  rewrite IH, join_nibbles. reflexivity.
Qed.

(** What a successful [Decode] returns: one byte for every two
    characters.  The statement covers [s] and [String ch s] together, so
    that the induction follows the two-character step of the loop. *)
Lemma Decode_ok_pair (s : string) :
  (forall bs, Decode s = (bs, None) ->
              slen s = 2 * llen bs /\ Forall is_byte bs)
  /\ (forall ch bs, Decode (String ch s) = (bs, None) ->
                    slen (String ch s) = 2 * llen bs /\ Forall is_byte bs).
Proof.
  induction s as [| q s [IH1 IH2]].
  - split.
    + intros bs [= <-]. split; [reflexivity | constructor].
    + intros ch bs. cbn [Decode]. destruct (fromHexChar ch); discriminate.
  - split; [exact (IH2 q) |].
    intros p bs. cbn [Decode].
    destruct (fromHexChar p) as [a |] eqn:Ha; [| discriminate].
    destruct (fromHexChar q) as [b |] eqn:Hb; [| discriminate].
    destruct (Decode s) as [bs' err] eqn:Hd.
    intros [= <- ->].
    destruct (IH1 bs' eq_refl) as [Hlen Hbytes].
    split.
    + rewrite !slen_String, llen_cons, Hlen. lia.
    + constructor; [| exact Hbytes].
      apply is_byte_nibbles; eapply fromHexChar_range; eassumption.
Qed.

Lemma Decode_ok (s : string) (bs : list byte) :
  Decode s = (bs, None) -> slen s = 2 * llen bs /\ Forall is_byte bs.
Proof. apply (proj1 (Decode_ok_pair s)). Qed.

(** ** The wrappers *)

Lemma rem_double (n : Z) : Z.rem (2 * n) 2 = 0.
Proof. rewrite Z.mul_comm. apply Z.rem_mul. lia. Qed.

(** Past its own checks, [ParseCapduHexString] is [ParseCapdu] on the
    decoded bytes. *)
Lemma ParseCapduHexString_decoded (s : string) (bs sp : list byte) :
  Decode s = (bs, None) -> 4 <= llen bs <= 65544 ->
  ParseCapduHexString s sp = of_res (ParseCapdu (Slice.mk bs sp)).
Proof.
  intros Hd Hl. destruct (Decode_ok s bs Hd) as [Hs _].
  unfold ParseCapduHexString, DecodeString. rewrite Hd, Hs, rem_double.
  rewrite Z.gtb_ltb. cbn [Z.eqb negb].
  destruct (Z.ltb_spec (2 * llen bs) 8); [lia |].
  destruct (Z.ltb_spec 131088 (2 * llen bs)); [lia | reflexivity].
Qed.

Lemma ParseRapduHexString_decoded (s : string) (bs sp : list byte) :
  Decode s = (bs, None) -> 2 <= llen bs <= 65538 ->
  ParseRapduHexString s sp = of_res (ParseRapdu (Slice.mk bs sp)).
Proof.
  intros Hd Hl. destruct (Decode_ok s bs Hd) as [Hs _].
  unfold ParseRapduHexString, DecodeString. rewrite Hd, Hs, rem_double.
  rewrite Z.gtb_ltb. cbn [Z.eqb negb].
  destruct (Z.ltb_spec (2 * llen bs) 4); [lia |].
  destruct (Z.ltb_spec 131076 (2 * llen bs)); [lia | reflexivity].
Qed.



(** X16.  Round trip through strings.  For a Capdu that satisfies the
    invariant of the data model and whose fields are bytes,
    [Capdu.String] returns a string and [ParseCapduHexString] on that
    string returns the Capdu. *)
Theorem ParseCapduHexString_String (c : Capdu.t) (sp : list byte) :
  capdu_wf c -> capdu_valid c ->
  exists s, Capdu_String c = Ok s /\ ParseCapduHexString s sp = WOk c.
Proof.
  intros Hwf [Hne Hdl].
  destruct (parse_Bytes_valid c sp Hne Hdl) as [bs [Hb Hp]].
  destruct (Bytes_bytes c Hwf) as [bs' [Hb' Hbytes]].
  assert (bs' = bs) as -> by congruence.
  destruct (Bytes_wire_len c) as [bs' [Hb'' Hlen]].
  assert (bs' = bs) as -> by congruence.
  pose proof (wire_len_bounds c) as Hw.
  exists (ToUpper (EncodeToString bs)).
  split; [unfold Capdu_String; rewrite Hb; reflexivity |].
  rewrite (ParseCapduHexString_decoded _ bs sp);
    [rewrite Hp; reflexivity | now apply Decode_ToUpper_EncodeToString | lia].
Qed.

(** An extended case 4 command. *)
Lemma ParseCapduHexString_String_witness :
  let c := Capdu.mk 0x00 0xA4 0x04 0x00 [0x01; 0x02; 0xAB] 65536 in
  capdu_wf c /\ capdu_valid c
  /\ exists s, Capdu_String c = Ok s /\ ParseCapduHexString s [] = WOk c.
Proof.
  cbv zeta.
  assert (Hwf : capdu_wf (Capdu.mk 0x00 0xA4 0x04 0x00 [0x01; 0x02; 0xAB] 65536))
    by (unfold capdu_wf, is_byte; cbn; repeat split; try lia; repeat constructor; lia).
  assert (Hv : capdu_valid (Capdu.mk 0x00 0xA4 0x04 0x00 [0x01; 0x02; 0xAB] 65536))
    by (unfold capdu_valid; by_eval).
  split; [exact Hwf |]. split; [exact Hv |].
  apply (ParseCapduHexString_String _ [] Hwf Hv).
Defined.

(** The outcome of [ParseCapduHexString] past its own checks. *)
Lemma ParseCapduHexString_checked (s : string) (sp : list byte) :
  Z.rem (slen s) 2 = 0 -> 8 <= slen s <= 131088 ->
  (exists e, ParseCapduHexString s sp = WErr (HexConversion e))
  \/ ParseCapduHexString s sp = WPanic
  \/ (exists lc, ParseCapduHexString s sp = WErr (Parse (InvalidLc lc)))
  \/ (exists r, ParseCapduHexString s sp = WOk r).
Proof.
  intros Hr Hl. unfold ParseCapduHexString, DecodeString.
  rewrite Hr, Z.gtb_ltb. cbn [Z.eqb negb].
  destruct (Z.ltb_spec (slen s) 8); [lia |].
  destruct (Z.ltb_spec 131088 (slen s)); [lia |]. cbn [orb].
  destruct (Decode s) as [b [e |]] eqn:Hd; [left; eexists; reflexivity |].
  destruct (Decode_ok s b Hd) as [Hs _].
  destruct (ParseCapdu_in_range_cases (Slice.mk b sp)) as [E | [[lc E] | [r E]]];
    [rewrite len_slice; lia | | |]; rewrite E; cbn [of_res].
  - right; left. reflexivity.
  - right; right; left. eexists. reflexivity.
  - right; right; right. eexists. reflexivity.
Qed.

(** X17.  The errors of [ParseCapduHexString].  It reports an uneven
    number of characters exactly for strings of odd length, and an
    invalid length exactly for strings of even length with fewer than 8
    or more than 131088 characters; because these bounds are twice the
    bounds of [ParseCapdu], the InvalidLength error of the parser never
    comes out of the wrapper. *)
Theorem ParseCapduHexString_errors (s : string) (sp : list byte) :
  (ParseCapduHexString s sp = WErr UnevenHex <-> Z.rem (slen s) 2 <> 0)
  /\ ((exists n, ParseCapduHexString s sp = WErr (InvalidStringLength n))
      <-> Z.rem (slen s) 2 = 0 /\ (slen s < 8 \/ 131088 < slen s))
  /\ (forall n, ParseCapduHexString s sp <> WErr (Parse (InvalidLength n))).
Proof.
  destruct (Z.eq_dec (Z.rem (slen s) 2) 0) as [Hr | Hr].
  - destruct (Z_lt_ge_dec (slen s) 8) as [Hlo | Hlo];
      [| destruct (Z_lt_ge_dec 131088 (slen s)) as [Hhi | Hhi]].
    + assert (E : ParseCapduHexString s sp
                  = WErr (InvalidStringLength (Z.quot (slen s) 2))).
      { unfold ParseCapduHexString. rewrite Hr. cbn [Z.eqb negb].
        destruct (Z.ltb_spec (slen s) 8); [reflexivity | lia]. }
      rewrite E. split; [split; [discriminate | contradiction] |].
      split; [| discriminate].
      split; [intros _; split; [exact Hr | lia] | intros _; eexists; reflexivity].
    + assert (E : ParseCapduHexString s sp
                  = WErr (InvalidStringLength (Z.quot (slen s) 2))).
      { unfold ParseCapduHexString. rewrite Hr, Z.gtb_ltb. cbn [Z.eqb negb].
        destruct (Z.ltb_spec 131088 (slen s)); [| lia].
        now rewrite orb_true_r. }
      rewrite E. split; [split; [discriminate | contradiction] |].
      split; [| discriminate].
      split; [intros _; split; [exact Hr | lia] | intros _; eexists; reflexivity].
    + destruct (ParseCapduHexString_checked s sp Hr) as
          [[e E] | [E | [[lc E] | [r E]]]]; [lia | | | |]; rewrite E;
        (split; [split; [discriminate | contradiction] |];
         split; [split; [intros [n Hn]; discriminate | intros [_ ?]; lia]
                | discriminate]).
  - assert (E : ParseCapduHexString s sp = WErr UnevenHex).
    { unfold ParseCapduHexString.
      destruct (Z.eqb_spec (Z.rem (slen s) 2) 0); [contradiction | reflexivity]. }
    rewrite E. split; [split; [intros _; exact Hr | reflexivity] |].
    split; [split; [intros [n Hn]; discriminate | intros [? _]; contradiction]
           | discriminate].
Qed.

(** X18.  Round trip of a Rapdu through strings: for a Rapdu whose
    fields are bytes, with at most 65536 bytes of data, [Rapdu.String]
    returns a string and [ParseRapduHexString] on it returns the
    Rapdu. *)
Theorem ParseRapduHexString_String (r : Rapdu.t) (sp : list byte) :
  rapdu_wf r -> Rapdu.dlen r <= 65536 ->
  exists s, Rapdu_String r = Ok s /\ ParseRapduHexString s sp = WOk r.
Proof.
  intros (Hd & H1 & H2) Hl.
  destruct r as [data sw1 sw2].
  cbn [Rapdu.Data Rapdu.SW1 Rapdu.SW2] in *.
  unfold Rapdu.dlen in Hl. cbn [Rapdu.Data] in Hl. fold (llen data) in Hl.
  assert (H0 : 0 <= llen data) by (unfold llen; lia).
  exists (ToUpper (EncodeToString (data ++ [sw1; sw2]))).
  split.
  - unfold Rapdu_String. rewrite Rapdu_Bytes_eq. cbn [bind Rapdu.Data Rapdu.SW1 Rapdu.SW2].
    rewrite firstn_all2 by (unfold llen in Hl; lia). reflexivity.
  - rewrite (ParseRapduHexString_decoded _ (data ++ [sw1; sw2]) sp).
    + rewrite ParseRapdu_layout by exact Hl. reflexivity.
    + apply Decode_ToUpper_EncodeToString.
      apply Forall_app. split; [exact Hd |].
      repeat (apply Forall_cons; [assumption |]). apply Forall_nil.
    + rewrite llen_app, !llen_cons, llen_nil. lia.
Qed.

(** Three bytes of data and the status word 9000. *)
Lemma ParseRapduHexString_String_witness :
  let r := Rapdu.mk [0x01; 0x02; 0xAB] 0x90 0x00 in
  rapdu_wf r /\ Rapdu.dlen r <= 65536
  /\ exists s, Rapdu_String r = Ok s /\ ParseRapduHexString s [] = WOk r.
Proof.
  cbv zeta.
  assert (Hwf : rapdu_wf (Rapdu.mk [0x01; 0x02; 0xAB] 0x90 0x00))
    by (unfold rapdu_wf, is_byte; cbn; repeat split; try lia; repeat constructor; lia).
  split; [exact Hwf |]. split; [by_eval |].
  apply (ParseRapduHexString_String _ [] Hwf). by_eval.
Defined.


(** ** The strings [String] returns *)

Lemma upper_hexchar_digit (n : Z) : upper_hex_digit (upper (hexchar n)) = true.
Proof.
  unfold hexchar. remember (Z.to_nat n) as m eqn:Hm. clear Hm.
  do 16 (destruct m as [| m]; [reflexivity |]). reflexivity.
Qed.

Lemma all_upper_hex (bs : list byte) :
  all_chars upper_hex_digit (ToUpper (EncodeToString bs)) = true.
Proof.
  induction bs as [| v bs IH]; [reflexivity |].
  cbn [EncodeToString ToUpper all_chars].
  now rewrite !upper_hexchar_digit, IH.
Qed.

(** X20.  The strings of [Capdu.String] and [Rapdu.String].  For every
    Capdu, [Capdu.String] returns a string of upper-case hexadecimal
    digits, two for each of the [wire_len] bytes of the encoding, hence
    of even length between 8 and 131088, which the length checks of
    [ParseCapduHexString] accept; for every Rapdu, [Rapdu.String] returns
    a string of upper-case hexadecimal digits of even length between 4
    and 131076. *)
Theorem String_format :
  (forall c : Capdu.t,
      exists s, Capdu_String c = Ok s
                /\ all_chars upper_hex_digit s = true
                /\ slen s = 2 * wire_len c
                /\ 8 <= slen s <= 131088)
  /\ (forall r : Rapdu.t,
        exists s, Rapdu_String r = Ok s
                  /\ all_chars upper_hex_digit s = true
                  /\ slen s = 2 * (Z.min (Rapdu.dlen r) 65536 + 2)
                  /\ 4 <= slen s <= 131076).
Proof.
  split.
  - intros c. destruct (Bytes_wire_len c) as [bs [Hb Hl]].
    pose proof (wire_len_bounds c) as Hw.
    exists (ToUpper (EncodeToString bs)).
    split; [unfold Capdu_String; rewrite Hb; reflexivity |].
    split; [apply all_upper_hex |].
    rewrite slen_ToUpper, slen_EncodeToString, Hl. lia.
  - intros r. eexists.
    split; [unfold Rapdu_String; rewrite Rapdu_Bytes_eq; reflexivity |].
    split; [apply all_upper_hex |].
    rewrite slen_ToUpper, slen_EncodeToString, llen_app, !llen_cons, llen_nil.
    assert (Hf : llen (firstn (Z.to_nat 65536) (Rapdu.Data r))
                 = Z.min (Rapdu.dlen r) 65536)
      by (unfold llen, Rapdu.dlen; rewrite length_firstn; lia).
    rewrite Hf. assert (H0 : 0 <= Rapdu.dlen r) by (unfold Rapdu.dlen; lia).
    lia.
Qed.

(** ** Upper and lower case *)







(** * Canonical encodings *)

Lemma hi8_lo8_u16 (h l : byte) :
  is_byte h -> is_byte l -> hi8 (u16 h l) = h /\ lo8 (u16 h l) = l.
Proof.
  unfold is_byte. intros Hh Hl.
  rewrite hi8_div, lo8_mod, u16_add by lia.
  replace (l + 256 * h) with (l + h * 256) by lia.
  rewrite Z.div_add, Z.mod_add by lia.
  rewrite (Z.div_small l 256), (Z.mod_small l 256) by lia.
  rewrite Z.mod_small by lia. split; lia.
Qed.

Lemma hi8_lo8_ne_ext (h l : byte) :
  is_byte h -> is_byte l ->
  hi8 (ne_ext (u16 h l)) = h /\ lo8 (ne_ext (u16 h l)) = l.
Proof.
  intros Hh Hl. unfold ne_ext.
  destruct (Z.eqb_spec (u16 h l) 0) as [E | E].
  - unfold is_byte in *. rewrite u16_add in E by lia.
    assert (h = 0) by lia. assert (l = 0) by lia. subst. split; reflexivity.
  - now apply hi8_lo8_u16.
Qed.

Lemma byte_of_int_ne_std (b : byte) : is_byte b -> byte_of_int (ne_std b) = b.
Proof.
  unfold is_byte, ne_std. intros H.
  destruct (Z.eqb_spec b 0) as [-> | E]; [reflexivity |].
  now apply byte_of_int_small.
Qed.

Lemma skipn_last_1 {A : Type} (l : list A) (k : nat) (d : A) :
  length l = S k -> skipn k l = [nth k l d].
Proof.
  intros H. assert (Hl : length (skipn k l) = 1%nat) by (rewrite length_skipn; lia).
  assert (Hn : nth k l d = nth 0 (skipn k l) d)
    by (rewrite nth_skipn; f_equal; lia).
  rewrite Hn. destruct (skipn k l) as [| a [| b t]]; try discriminate.
  reflexivity.
Qed.

Lemma skipn_last_2 {A : Type} (l : list A) (k : nat) (d : A) :
  length l = S (S k) -> skipn k l = [nth k l d; nth (S k) l d].
Proof.
  intros H. assert (Hl : length (skipn k l) = 2%nat) by (rewrite length_skipn; lia).
  assert (H0 : nth k l d = nth 0 (skipn k l) d)
    by (rewrite nth_skipn; f_equal; lia).
  assert (H1 : nth (S k) l d = nth 1 (skipn k l) d)
    by (rewrite nth_skipn; f_equal; lia).
  rewrite H0, H1. destruct (skipn k l) as [| a [| b [| x t]]]; try discriminate.
  reflexivity.
Qed.

Section InputSequence.
Import Slice.

Variable c : Slice.t.

Lemma elems_4 :
  len c = 4 -> elems c = [at_ c 0; at_ c 1; at_ c 2; at_ c 3].
Proof.
  unfold len, at_. intros H.
  destruct (elems c) as [| a0 [| a1 [| a2 [| a3 [| a4 t]]]]];
    cbn [length] in H; try lia. reflexivity.
Qed.

Lemma elems_5 :
  5 <= len c ->
  elems c = at_ c 0 :: at_ c 1 :: at_ c 2 :: at_ c 3 :: at_ c 4
              :: skipn (Z.to_nat 5) (elems c).
Proof.
  unfold len, at_. intros H.
  destruct (elems c) as [| a0 [| a1 [| a2 [| a3 [| a4 t]]]]];
    cbn [length] in H; try lia. reflexivity.
Qed.

Lemma elems_7 :
  7 <= len c ->
  elems c = at_ c 0 :: at_ c 1 :: at_ c 2 :: at_ c 3 :: at_ c 4
              :: at_ c 5 :: at_ c 6 :: skipn (Z.to_nat 7) (elems c).
Proof.
  unfold len, at_. intros H.
  destruct (elems c) as [| a0 [| a1 [| a2 [| a3 [| a4 [| a5 [| a6 t]]]]]]];
    cbn [length] in H; try lia. reflexivity.
Qed.

Lemma tail_exact (off lc : Z) :
  0 <= off -> 0 <= lc -> off + lc = len c ->
  skipn (Z.to_nat off) (elems c) = body c off lc.
Proof.
  intros Ho Hl H. unfold body, len in *.
  rewrite firstn_all2; [reflexivity |]. rewrite length_skipn. lia.
Qed.

Lemma tail_1 (off lc : Z) :
  0 <= off -> 0 <= lc -> off + lc + 1 = len c ->
  skipn (Z.to_nat off) (elems c) = body c off lc ++ [at_ c (len c - 1)].
Proof.
  intros Ho Hl H. unfold body, at_, len in *.
  rewrite <- (firstn_skipn (Z.to_nat lc) (skipn (Z.to_nat off) (elems c))) at 1.
  f_equal. rewrite skipn_skipn.
  replace (Z.to_nat (Z.of_nat (length (elems c)) - 1))
    with (Z.to_nat lc + Z.to_nat off)%nat by lia.
  apply skipn_last_1. lia.
Qed.

Lemma tail_2 (off lc : Z) :
  0 <= off -> 0 <= lc -> off + lc + 2 = len c ->
  skipn (Z.to_nat off) (elems c)
  = body c off lc ++ [at_ c (len c - 2); at_ c (len c - 1)].
Proof.
  intros Ho Hl H. unfold body, at_, len in *.
  rewrite <- (firstn_skipn (Z.to_nat lc) (skipn (Z.to_nat off) (elems c))) at 1.
  f_equal. rewrite skipn_skipn.
  replace (Z.to_nat (Z.of_nat (length (elems c)) - 2))
    with (Z.to_nat lc + Z.to_nat off)%nat by lia.
  replace (Z.to_nat (Z.of_nat (length (elems c)) - 1))
    with (S (Z.to_nat lc + Z.to_nat off)) by lia.
  apply skipn_last_2. lia.
Qed.

End InputSequence.

(** The fields of a parsed command, for the lemmas on [Capdu.Bytes]. *)
Lemma hdr_fields (c : Slice.t) (data : list byte) (ne : Z) :
  Capdu.dlen (hdr c data ne) = llen data
  /\ Capdu.Ne (hdr c data ne) = ne
  /\ Capdu.Data (hdr c data ne) = data
  /\ header (hdr c data ne) = [at_ c 0; at_ c 1; at_ c 2; at_ c 3].
Proof. repeat split. Qed.

Ltac take_bs H :=
  match type of H with
  | Ok ?x = Ok ?b => assert (b = x) as -> by congruence; clear H
  end.

Ltac use_fields c data ne :=
  destruct (hdr_fields c data ne) as (Hdl & Hne & Hda & Hhd);
  set (r := hdr c data ne) in *.

(** X22.  Canonical inputs.  When [ParseCapdu] accepts a well-formed
    input and the encoding [Capdu.Bytes] writes for the result has the
    length of the input, that encoding is the input, byte for byte.
    Together with X6, re-encoding either gives the input back or a
    strictly shorter encoding. *)
Theorem ParseCapdu_canonical (c : Slice.t) (r : Capdu.t) (bs : list byte) :
  slice_wf c -> ParseCapdu c = Ok r -> Capdu.Bytes r = Ok bs ->
  llen bs = Slice.len c -> bs = Slice.elems c.
Proof.
  intros Hwf Hp Hb Hlen. revert Hp. rewrite ParseCapdu_eq, !Z.gtb_ltb.
  destruct (Z.ltb_spec (Slice.len c) 4); [discriminate |].
  destruct (Z.ltb_spec 65544 (Slice.len c)); [discriminate |]. cbn [orb].
  destruct (Z.eqb_spec (Slice.len c) 4) as [E4 | E4].
  { intros [= <-]. rewrite Bytes_case1 in Hb by reflexivity.
    take_bs Hb. symmetry. now apply elems_4. }
  assert (H4b : is_byte (at_ c 4)) by (apply at_is_byte; (assumption || lia)).
  destruct (Z.eqb_spec (at_ c 4) 0) as [Hz | Hz];
    destruct (Z.ltb_spec 5 (Slice.len c)) as [H5 | H5]; cbn [andb].
  - (* extended *)
    destruct (Z.eq_dec (Slice.len c) 6) as [E6 | E6].
    { destruct (parseCapduExtendedLength_len6_cases c E6) as [-> | [lc ->]];
        discriminate. }
    rewrite parseCapduExtendedLength_eq by lia.
    assert (H5b : is_byte (at_ c 5)) by (apply at_is_byte; (assumption || lia)).
    assert (H6b : is_byte (at_ c 6)) by (apply at_is_byte; (assumption || lia)).
    pose proof (u16_bytes_range _ _ H5b H6b) as Hlc.
    destruct (hi8_lo8_u16 _ _ H5b H6b) as [Hhi Hlo].
    destruct (Z.eqb_spec (Slice.len c) 7) as [E7 | E7].
    { intros [= <-]. use_fields c (@nil byte) (ne_ext (u16 (at_ c 5) (at_ c 6))).
      pose proof (ne_ext_range _ Hlc) as Hr.
      destruct (hi8_lo8_ne_ext _ _ H5b H6b) as [Hh Hl].
      destruct (Z_le_gt_dec (Capdu.Ne r) 256) as [Hs | Hx].
      - rewrite Bytes_case2_std in Hb by (rewrite ?Hdl, ?Hne; (reflexivity || lia)).
        take_bs Hb. rewrite Hhd in Hlen. cbn [app] in Hlen.
        rewrite !llen_cons, llen_nil in Hlen. lia.
      - rewrite Bytes_case2_ext in Hb by (rewrite ?Hdl, ?Hne; (reflexivity || lia)).
        take_bs Hb. rewrite Hhd, ext3_bytes.
        unfold wire_ne. rewrite Z.min_l by lia. rewrite Hne, Hh, Hl.
        rewrite (elems_7 c) at 1 by lia. rewrite Hz.
        rewrite skipn_all2 by (unfold Slice.len in E7; lia). reflexivity. }
    cbv zeta. set (lc := u16 (at_ c 5) (at_ c 6)) in *.
    destruct (Z.eqb_spec lc (Slice.len c - 7)) as [Ha | Ha].
    { intros [= <-]. use_fields c (body c 7 lc) 0.
      rewrite body_llen in Hdl by lia.
      destruct (Z_le_gt_dec lc 255) as [Hs | Hx].
      - rewrite Bytes_case3_std in Hb by (rewrite ?Hdl, ?Hne; (reflexivity || lia)).
        take_bs Hb. rewrite Hhd, Hda in Hlen. cbn [app] in Hlen.
        rewrite !llen_cons, body_llen in Hlen by lia. lia.
      - rewrite Bytes_case3_ext in Hb by (rewrite ?Hdl, ?Hne; (reflexivity || lia)).
        take_bs Hb.
        rewrite firstn_wire_dlen_small, wire_dlen_small by lia.
        rewrite Hhd, Hda, Hdl, ext3_bytes, Hhi, Hlo.
        rewrite (elems_7 c) at 1 by lia. rewrite Hz.
        rewrite (tail_exact c 7 lc) by lia. reflexivity. }
    destruct (Z.eqb_spec lc (Slice.len c - 9)) as [Hb9 | Hb9]; [| discriminate].
    destruct (Z.ltb_spec lc 0); [discriminate |].
    assert (Heh : is_byte (at_ c (Slice.len c - 2)))
      by (apply at_is_byte; (assumption || lia)).
    assert (Hel : is_byte (at_ c (Slice.len c - 1)))
      by (apply at_is_byte; (assumption || lia)).
    pose proof (ne_ext_range _ (u16_bytes_range _ _ Heh Hel)) as Hr.
    destruct (hi8_lo8_ne_ext _ _ Heh Hel) as [Hh Hl].
    intros [= <-].
    use_fields c (body c 7 lc)
      (ne_ext (u16 (at_ c (Slice.len c - 2)) (at_ c (Slice.len c - 1)))).
    rewrite body_llen in Hdl by lia.
    destruct (Z.eq_dec lc 0) as [E0 | E0].
    { (* no data: the re-encoding is a case 2 command *)
      destruct (Bytes_wire_len r) as [bs' [Hb' Hl']].
      assert (bs' = bs) as -> by congruence.
      rewrite Hlen in Hl'. revert Hl'.
      unfold wire_len, Capdu.IsExtendedLength. rewrite Hdl, Hne, E0.
      repeat decide_cmp; cbn [andb orb]; repeat decide_cmp; lia. }
    destruct (Z_le_gt_dec (Capdu.Ne r) 256) as [Hs | Hx];
      [destruct (Z_le_gt_dec lc 255) as [Hds | Hdx] |].
    + rewrite Bytes_case4_std in Hb by (rewrite ?Hdl, ?Hne; lia).
      take_bs Hb. rewrite Hhd, Hda in Hlen. cbn [app] in Hlen.
      rewrite !llen_cons, llen_app, !llen_cons, llen_nil, body_llen in Hlen by lia.
      lia.
    + rewrite Bytes_case4_ext in Hb by (rewrite ?Hdl, ?Hne; lia).
      take_bs Hb.
      rewrite firstn_wire_dlen_small, wire_dlen_small by lia.
      unfold wire_ne. rewrite Z.min_l by lia.
      rewrite Hhd, Hda, Hdl, Hne, ext3_bytes, Hhi, Hlo, Hh, Hl.
      rewrite (elems_7 c) at 1 by lia. rewrite Hz.
      rewrite (tail_2 c 7 lc) by lia. reflexivity.
    + rewrite Bytes_case4_ext in Hb by (rewrite ?Hdl, ?Hne; lia).
      take_bs Hb.
      rewrite firstn_wire_dlen_small, wire_dlen_small by lia.
      unfold wire_ne. rewrite Z.min_l by lia.
      rewrite Hhd, Hda, Hdl, Hne, ext3_bytes, Hhi, Hlo, Hh, Hl.
      rewrite (elems_7 c) at 1 by lia. rewrite Hz.
      rewrite (tail_2 c 7 lc) by lia. reflexivity.
  - (* five bytes, the last one zero *)
    rewrite parseCapduStandardLength_eq by lia.
    destruct (Z.eqb_spec (Slice.len c) 5); [| lia].
    intros [= <-]. use_fields c (@nil byte) (ne_std (at_ c 4)).
    pose proof (ne_std_range _ H4b) as Hr.
    rewrite Bytes_case2_std in Hb by (rewrite ?Hdl, ?Hne; (reflexivity || lia)).
    take_bs Hb. rewrite Hhd, Hne, byte_of_int_ne_std by exact H4b.
    rewrite (elems_5 c) at 1 by lia.
    rewrite skipn_all2 by (unfold Slice.len in *; lia). reflexivity.
  - (* standard, with Lc *)
    rewrite parseCapduStandardLength_eq by lia.
    unfold is_byte in H4b.
    destruct (Z.eqb_spec (Slice.len c) 5); [lia |]. cbv zeta.
    destruct (Z.eqb_spec (at_ c 4) (Slice.len c - 5)) as [Ha | Ha].
    { intros [= <-]. use_fields c (body c 5 (at_ c 4)) 0.
      rewrite body_llen in Hdl by lia.
      rewrite Bytes_case3_std in Hb by (rewrite ?Hdl, ?Hne; (reflexivity || lia)).
      take_bs Hb. rewrite Hhd, Hda, Hdl, byte_of_int_small by lia.
      rewrite (elems_5 c) at 1 by lia.
      rewrite (tail_exact c 5 (at_ c 4)) by lia. reflexivity. }
    destruct (Z.eqb_spec (at_ c 4) (Slice.len c - 6)) as [Hb6 | Hb6];
      [| discriminate].
    assert (Hle : is_byte (at_ c (Slice.len c - 1)))
      by (apply at_is_byte; (assumption || lia)).
    pose proof (ne_std_range _ Hle) as Hr.
    intros [= <-].
    use_fields c (body c 5 (at_ c 4)) (ne_std (at_ c (Slice.len c - 1))).
    rewrite body_llen in Hdl by lia.
    rewrite Bytes_case4_std in Hb by (rewrite ?Hdl, ?Hne; lia).
    take_bs Hb.
    rewrite Hhd, Hda, Hdl, Hne, byte_of_int_small, byte_of_int_ne_std
      by (assumption || lia).
    rewrite (elems_5 c) at 1 by lia.
    rewrite (tail_1 c 5 (at_ c 4)) by lia. reflexivity.
  - (* five bytes *)
    rewrite parseCapduStandardLength_eq by lia.
    destruct (Z.eqb_spec (Slice.len c) 5); [| lia].
    intros [= <-]. use_fields c (@nil byte) (ne_std (at_ c 4)).
    pose proof (ne_std_range _ H4b) as Hr.
    rewrite Bytes_case2_std in Hb by (rewrite ?Hdl, ?Hne; (reflexivity || lia)).
    take_bs Hb. rewrite Hhd, Hne, byte_of_int_ne_std by exact H4b.
    rewrite (elems_5 c) at 1 by lia.
    rewrite skipn_all2 by (unfold Slice.len in *; lia). reflexivity.
Qed.

(** Scenario B of the test suite is canonical. *)
Lemma ParseCapdu_canonical_witness :
  let l := [0x00; 0xA4; 0x04; 0x00; 0x05; 0x01; 0x02; 0x03; 0x04; 0x05; 0x20] in
  let r := Capdu.mk 0x00 0xA4 0x04 0x00 [0x01; 0x02; 0x03; 0x04; 0x05] 32 in
  slice_wf (Slice.of_list l) /\ ParseCapdu (Slice.of_list l) = Ok r
  /\ Capdu.Bytes r = Ok l /\ llen l = Slice.len (Slice.of_list l)
  /\ l = Slice.elems (Slice.of_list l).
Proof.
  cbv zeta.
  assert (Hwf : slice_wf (Slice.of_list
             [0x00; 0xA4; 0x04; 0x00; 0x05; 0x01; 0x02; 0x03; 0x04; 0x05; 0x20]))
    by (unfold slice_wf, is_byte; cbn [Slice.of_list Slice.elems Slice.spare app];
        repeat constructor; lia).
  split; [exact Hwf |]. split; [reflexivity |]. split; [reflexivity |].
  split; [reflexivity |].
  apply (ParseCapdu_canonical _ (Capdu.mk 0x00 0xA4 0x04 0x00 [0x01; 0x02; 0x03; 0x04; 0x05] 32) _ Hwf);
    reflexivity.
Defined.

(** * Status words that no predicate classifies *)

(** X23.  The three status predicates together cover SW1 from 61 to 6F
    except 66, and the status word 9000; every other status word, such as
    6600 or 9001, is classified by none of them. *)
Theorem status_covered (r : Rapdu.t) :
  Rapdu.IsSuccess r || Rapdu.IsWarning r || Rapdu.IsError r = true
  <-> (0x61 <= Rapdu.SW1 r <= 0x6F /\ Rapdu.SW1 r <> 0x66)
      \/ (Rapdu.SW1 r = 0x90 /\ Rapdu.SW2 r = 0x00).
Proof.
  rewrite !orb_true_iff, IsSuccess_iff, IsWarning_iff, IsError_iff. lia.
Qed.
